(** * SipHash (allc/SipHash): a shallow embedding of [siphash.py] and [util.py]

    Python integers are unbounded, so every integer of the program is a [Z]
    and the 64-bit wrap-around is the explicit [& 0xffffffffffffffff] of the
    source.  A [bytes] object is a [list byte].  The two places where the
    program can raise ([int.to_bytes]) are kept: fallible functions return a
    [result].  The engine object is a record, and [get_hash], the one method
    that writes a field, passes the object explicitly. *)

From Stdlib Require Import ZArith List String Ascii Lia Bool.
From Stdlib Require Import Strings.Byte.
From coqutil Require Import Z.bitblast.
Import ListNotations.
Local Open Scope Z_scope.

(** ** Exceptions and the error monad *)

Inductive overflow_reason : Type :=
| NegativeToUnsigned   (* "can't convert negative int to unsigned" *)
| IntTooBig.           (* "int too big to convert" *)

Inductive exception : Type :=
| OverflowError (why : overflow_reason).

Inductive result (A : Type) : Type :=
| Ok (a : A)
| Raise (e : exception).

Arguments Ok {A} a.
Arguments Raise {A} e.

Definition bind {A B : Type} (m : result A) (k : A -> result B) : result B :=
  match m with
  | Ok a => k a
  | Raise e => Raise e
  end.

Notation "x <- m ;; k" := (bind m (fun x => k))
  (at level 61, m at next level, right associativity).
Notation "' p <- m ;; k" := (bind m (fun x => let p := x in k))
  (at level 61, p pattern, m at next level, right associativity).

(** ** The Python built-ins the program calls *)

Module Py.

Definition bytes := list byte.

Inductive byteorder : Type := little | big.

Definition byte_to_Z (b : byte) : Z := Z.of_N (Byte.to_N b).

(* The byte whose value is [z mod 256]. *)
Definition byte_of_Z (z : Z) : byte :=
  match Byte.of_N (Z.to_N (z mod 256)) with
  | Some b => b
  | None => x00
  end.

(* The [length] low-order base-256 digits of [n], least significant first. *)
Fixpoint le_digits (length : nat) (n : Z) : bytes :=
  match length with
  | O => []
  | S length' => byte_of_Z n :: le_digits length' (n / 256)
  end.

(* [n.to_bytes(length, byteorder)], unsigned: raises OverflowError on a
   negative [n] and on an [n] that does not fit in [length] bytes. *)
Definition to_bytes (n : Z) (length : nat) (order : byteorder) : result bytes :=
  if n <? 0 then Raise (OverflowError NegativeToUnsigned)
  else if 2 ^ (8 * Z.of_nat length) <=? n then Raise (OverflowError IntTooBig)
  else Ok (match order with
           | little => le_digits length n
           | big => rev (le_digits length n)
           end).

Fixpoint le_value (bs : bytes) : Z :=
  match bs with
  | [] => 0
  | b :: bs' => byte_to_Z b + 256 * le_value bs'
  end.

(* [int.from_bytes(bs, byteorder)], unsigned. *)
Definition from_bytes (bs : bytes) (order : byteorder) : Z :=
  match order with
  | little => le_value bs
  | big => le_value (rev bs)
  end.

(* [bs[i : j]] for non-negative [i], [j]. *)
Definition slice (bs : bytes) (i j : nat) : bytes :=
  firstn (j - i) (skipn i bs).

(* [range(start, stop, step)] for a positive [step]. *)
Definition range3 (start stop step : nat) : list nat :=
  map (fun k => (start + k * step)%nat)
      (seq 0 ((stop - start + step - 1) / step)).

(* [for _ in range(n): x = f(x)]; [range(n)] is empty for [n <= 0]. *)
Definition repeat_range {A : Type} (n : Z) (f : A -> A) (x : A) : A :=
  Nat.iter (Z.to_nat n) f x.

Definition hex_digit (d : Z) : ascii :=
  match String.get (Z.to_nat d) "0123456789abcdef" with
  | Some ch => ch
  | None => "0"%char
  end.

Fixpoint hex_digits (fuel : nat) (n : Z) (acc : string) : string :=
  let acc' := String (hex_digit (n mod 16)) acc in
  match fuel with
  | O => acc'
  | S fuel' => if n / 16 =? 0 then acc' else hex_digits fuel' (n / 16) acc'
  end.

(* The hexadecimal digits of [n >= 0], most significant first, no leading
   zero; four bits per digit, so [log2 n] steps are always enough. *)
Definition hex_of_nonneg (n : Z) : string :=
  hex_digits (Z.to_nat (Z.log2 n)) n EmptyString.

(* [hex(n)]. *)
Definition hex (n : Z) : string :=
  if n <? 0 then ("-0x" ++ hex_of_nonneg (- n))%string
  else ("0x" ++ hex_of_nonneg n)%string.

(* [s[n:]]. *)
Fixpoint string_from (n : nat) (s : string) : string :=
  match n, s with
  | O, _ => s
  | S _, EmptyString => EmptyString
  | S n', String _ s' => string_from n' s'
  end.

End Py.

(** ** util.py *)

Module util.

(* return int.from_bytes(num.to_bytes(8, 'big'), 'little') *)
Definition big_to_little8 (num : Z) : result Z :=
  bs <- Py.to_bytes num 8 Py.big ;;
  Ok (Py.from_bytes bs Py.little).

(* return ((num << bits) & 0xffffffffffffffff) | (num >> (64 - bits)) *)
Definition rotl8 (num bits : Z) : Z :=
  Z.lor (Z.land (Z.shiftl num bits) 0xffffffffffffffff)
        (Z.shiftr num (64 - bits)).

End util.

(** ** siphash.py: class SipHash *)

Definition state : Type := Z * Z * Z * Z.

Record SipHash : Type := mkSipHash {
  key : Z;
  message : Py.bytes;
  c : Z;
  d : Z;
  hash : option Z
}.

(* SipHash(key, message, c, d): the constructor only stores its arguments. *)
Definition __init__ (key : Z) (message : Py.bytes) (c d : Z) : SipHash :=
  {| key := key; message := message; c := c; d := d; hash := None |}.

(* SipHash(key, message) with the default round counts c=2, d=4. *)
Definition __init__default (key : Z) (message : Py.bytes) : SipHash :=
  __init__ key message 2 4.

Definition set_hash (self : SipHash) (h : Z) : SipHash :=
  {| key := key self; message := message self; c := c self; d := d self;
     hash := Some h |}.

Definition _encode_key (key : Z) : result (Z * Z) :=
  k0 <- util.big_to_little8 (Z.shiftr key (8 * 8)) ;;
  k1 <- util.big_to_little8 (Z.land key 0xffffffffffffffff) ;;
  Ok (k0, k1).

Definition _initialise_internal_state (k0 k1 : Z) : state :=
  let c1 := 0x736f6d6570736575 in
  let c2 := 0x646f72616e646f6d in
  let c3 := 0x6c7967656e657261 in
  let c4 := 0x7465646279746573 in
  let v0 := Z.lxor k0 c1 in
  let v1 := Z.lxor k1 c2 in
  let v2 := Z.lxor k0 c3 in
  let v3 := Z.lxor k1 c4 in
  (v0, v1, v2, v3).

Definition _sipround (internal_state : state) : state :=
  let '(v0, v1, v2, v3) := internal_state in
  let v0 := Z.land (v0 + v1) 0xffffffffffffffff in
  let v1 := util.rotl8 v1 13 in
  let v1 := Z.lxor v1 v0 in
  let v0 := util.rotl8 v0 32 in
  let v2 := Z.land (v2 + v3) 0xffffffffffffffff in
  let v3 := util.rotl8 v3 16 in
  let v3 := Z.lxor v3 v2 in
  let v2 := Z.land (v2 + v1) 0xffffffffffffffff in
  let v1 := util.rotl8 v1 17 in
  let v1 := Z.lxor v1 v2 in
  let v2 := util.rotl8 v2 32 in
  let v0 := Z.land (v0 + v3) 0xffffffffffffffff in
  let v3 := util.rotl8 v3 21 in
  let v3 := Z.lxor v3 v0 in
  (v0, v1, v2, v3).

(* The buffer that line 153 of siphash.py rebinds [message] to. *)
Definition padded_message (message : Py.bytes) : result Py.bytes :=
  let message_length := Z.of_nat (List.length message) in
  let padding_length := (message_length + 1) mod 8 in
  length_byte <- Py.to_bytes (message_length mod 256) 1 Py.little ;;
  Ok (message ++ repeat x00 (Z.to_nat padding_length) ++ length_byte).

(* The list comprehension of line 154 over the padded buffer. *)
Definition split_words (message : Py.bytes) : list Z :=
  map (fun i => Py.from_bytes (Py.slice message i (i + 8)) Py.little)
      (Py.range3 0 (List.length message) 8).

Definition _message_to_words (message : Py.bytes) : result (list Z) :=
  message <- padded_message message ;;
  Ok (split_words message).

(* One turn of the [for word in words] loop of [_compress]. *)
Definition compress_word (c : Z) (st : state) (word : Z) : state :=
  let '(v0, v1, v2, v3) := st in
  let v3 := Z.lxor v3 word in
  let '(v0, v1, v2, v3) := Py.repeat_range c _sipround (v0, v1, v2, v3) in
  let v0 := Z.lxor v0 word in
  (v0, v1, v2, v3).

Definition _compress (c : Z) (message : Py.bytes) (internal_state : state)
  : result state :=
  words <- _message_to_words message ;;
  Ok (fold_left (compress_word c) words internal_state).

Definition _finalise (d : Z) (internal_state : state) : Z :=
  let '(v0, v1, v2, v3) := internal_state in
  let v2 := Z.lxor v2 0xff in
  let '(v0, v1, v2, v3) := Py.repeat_range d _sipround (v0, v1, v2, v3) in
  Z.lxor (Z.lxor (Z.lxor v0 v1) v2) v3.

(* The body of the [if self.hash is None] branch, up to the assignment. *)
Definition compute_hash (self : SipHash) : result Z :=
  '(k0, k1) <- _encode_key (key self) ;;
  let internal_state := _initialise_internal_state k0 k1 in
  internal_state <- _compress (c self) (message self) internal_state ;;
  Ok (_finalise (d self) internal_state).

(* [get_hash] returns its outcome and the object as the call leaves it: an
   exception leaves [self.hash] as it was. *)
Definition get_hash (self : SipHash) : result Z * SipHash :=
  match hash self with
  | None =>
      match compute_hash self with
      | Ok h => (Ok h, set_hash self h)
      | Raise e => (Raise e, self)
      end
  | Some h => (Ok h, self)
  end.

Definition hexdigest (self : SipHash) : result string * SipHash :=
  match get_hash self with
  | (Ok h, self') => (Ok (Py.string_from 2 (Py.hex h)), self')
  | (Raise e, self') => (Raise e, self')
  end.

(** ** Known-answer vector of the test suite *)

Definition test_key : Z := 0x000102030405060708090a0b0c0d0e0f.

Definition test_message : Py.bytes :=
  [x00; x01; x02; x03; x04; x05; x06; x07; x08; x09; x0a; x0b; x0c; x0d; x0e].

(* A message of exactly one block. *)
Definition one_block_message : Py.bytes :=
  [x00; x01; x02; x03; x04; x05; x06; x07].

(* The state of [test_sipround] in test_siphash.py. *)
Definition test_round_state : state :=
  (0x7469686173716475, 0x6b617f6d656e6665,
   0x6b7f62616d677361, 0x7c6d6c6a717c6d7b).

(* A call that raises instead of returning. *)
Definition raises {A : Type} (outcome : result A) : Prop :=
  exists e, outcome = Raise e.

(** ** 64-bit words *)

Definition u64 (x : Z) : Prop := 0 <= x < 2 ^ 64.

Definition is_byte (b : Z) : Prop := 0 <= b < 256.

Definition state64 (s : state) : Prop :=
  let '(v0, v1, v2, v3) := s in u64 v0 /\ u64 v1 /\ u64 v2 /\ u64 v3.

(* The round undone step by step, last assignment first; a right rotation by
   [n] is a left rotation by [64 - n]. *)
Definition unsipround (internal_state : state) : state :=
  let '(v0, v1, v2, v3) := internal_state in
  let v3 := util.rotl8 (Z.lxor v3 v0) (64 - 21) in
  let v0 := (v0 - v3) mod 2 ^ 64 in
  let v2 := util.rotl8 v2 (64 - 32) in
  let v1 := util.rotl8 (Z.lxor v1 v2) (64 - 17) in
  let v2 := (v2 - v1) mod 2 ^ 64 in
  let v3 := util.rotl8 (Z.lxor v3 v2) (64 - 16) in
  let v2 := (v2 - v3) mod 2 ^ 64 in
  let v0 := util.rotl8 v0 (64 - 32) in
  let v1 := util.rotl8 (Z.lxor v1 v0) (64 - 13) in
  let v0 := (v0 - v1) mod 2 ^ 64 in
  (v0, v1, v2, v3).

(** ** The operations as the specification words them

    Used only to compare with the definitions above. *)

Module Spec.

(* Byte [i] of a value, byte 0 the least significant. *)
Definition byte_at (value i : Z) : Z := Z.land (Z.shiftr value (8 * i)) 0xff.

(* byteSwap64: reverses the byte order of a 64-bit value. *)
Definition byteSwap64 (value : Z) : Z :=
  Z.lor (Z.shiftl (byte_at value 0) 56)
 (Z.lor (Z.shiftl (byte_at value 1) 48)
 (Z.lor (Z.shiftl (byte_at value 2) 40)
 (Z.lor (Z.shiftl (byte_at value 3) 32)
 (Z.lor (Z.shiftl (byte_at value 4) 24)
 (Z.lor (Z.shiftl (byte_at value 5) 16)
 (Z.lor (Z.shiftl (byte_at value 6) 8)
        (byte_at value 7))))))).

(* rotateLeft64: (value << bits) | (value >> (64 - bits)), both shifts
   masked to 64 bits. *)
Definition rotateLeft64 (value bits : Z) : Z :=
  Z.lor (Z.land (Z.shiftl value bits) (Z.ones 64))
        (Z.land (Z.shiftr value (64 - bits)) (Z.ones 64)).

(* Addition modulo 2^64. *)
Definition add64 (a b : Z) : Z := (a + b) mod 2 ^ 64.

(* encodeKey: high and low halves, each byte-swapped. *)
Definition encodeKey (key : Z) : Z * Z :=
  (byteSwap64 (Z.shiftr key 64), byteSwap64 (Z.land key (2 ^ 64 - 1))).

(* sipRound, section 4.5:
     v0 += v1;  v1 = rotl(v1,13);  v1 ^= v0;  v0 = rotl(v0,32)
     v2 += v3;  v3 = rotl(v3,16);  v3 ^= v2
     v2 += v1;  v1 = rotl(v1,17);  v1 ^= v2;  v2 = rotl(v2,32)
     v0 += v3;  v3 = rotl(v3,21);  v3 ^= v0 *)
Definition sipRound (s : state) : state :=
  let '(v0, v1, v2, v3) := s in
  let v0 := add64 v0 v1 in
  let v1 := rotateLeft64 v1 13 in
  let v1 := Z.lxor v1 v0 in
  let v0 := rotateLeft64 v0 32 in
  let v2 := add64 v2 v3 in
  let v3 := rotateLeft64 v3 16 in
  let v3 := Z.lxor v3 v2 in
  let v2 := add64 v2 v1 in
  let v1 := rotateLeft64 v1 17 in
  let v1 := Z.lxor v1 v2 in
  let v2 := rotateLeft64 v2 32 in
  let v0 := add64 v0 v3 in
  let v3 := rotateLeft64 v3 21 in
  let v3 := Z.lxor v3 v0 in
  (v0, v1, v2, v3).

End Spec.

(** ** Reading hexadecimal digits back

    Python's [int(s, 16)] on a string of lowercase digits; used to state what
    [hexdigest] returns. *)





(** * Properties *)

(** ** The built-ins on small inputs *)

Example hex_small :
  Py.hex 0 = "0x0"%string /\ Py.hex 255 = "0xff"%string
  /\ Py.hex 4096 = "0x1000"%string /\ Py.hex (-255) = "-0xff"%string.
Proof. repeat split. Qed.

Example range3_small :
  Py.range3 0 10 8 = [0; 8]%nat /\ Py.range3 0 16 8 = [0; 8]%nat
  /\ Py.range3 0 0 8 = [].
Proof. repeat split. Qed.

Example to_bytes_small :
  Py.to_bytes 0x0102 2 Py.big = Ok [x01; x02]
  /\ Py.to_bytes 0x0102 2 Py.little = Ok [x02; x01]
  /\ Py.to_bytes 256 1 Py.little = Raise (OverflowError IntTooBig)
  /\ Py.from_bytes [x00; x08] Py.little = 0x0800.
Proof. repeat split. Qed.

(** ** Bit-level facts about 64-bit words *)

Lemma mask64_ones : 0xffffffffffffffff = Z.ones 64.
Proof. reflexivity. Qed.

Lemma land_mask64 (x : Z) : Z.land x 0xffffffffffffffff = x mod 2 ^ 64.
Proof. rewrite mask64_ones. apply Z.land_ones. lia. Qed.

Lemma u64_mod (x : Z) : u64 (x mod 2 ^ 64).
Proof. unfold u64. apply Z.mod_pos_bound. lia. Qed.

Lemma u64_mod_small (x : Z) : u64 x -> x mod 2 ^ 64 = x.
Proof. intros H. apply Z.mod_small. exact H. Qed.

Lemma u64_testbit_high (x i : Z) : u64 x -> 64 <= i -> Z.testbit x i = false.
Proof.
  intros Hx Hi. rewrite <- (u64_mod_small x Hx).
  apply Z.mod_pow2_bits_high. lia.
Qed.

Lemma u64_of_bits (x : Z) :
  (forall i, 0 <= i -> Z.testbit (x mod 2 ^ 64) i = Z.testbit x i) -> u64 x.
Proof.
  intros H. rewrite <- (Z.bits_inj' _ _ H). apply u64_mod.
Qed.

Lemma u64_lxor (a b : Z) : u64 a -> u64 b -> u64 (Z.lxor a b).
Proof.
  intros Ha Hb. apply u64_of_bits. intros i Hi.
  rewrite Z.testbit_mod_pow2 by lia.
  destruct (Z.ltb_spec i 64) as [Hlt | Hge]; [reflexivity | ].
  rewrite Z.lxor_spec, (u64_testbit_high a), (u64_testbit_high b) by assumption.
  reflexivity.
Qed.

Lemma u64_shiftr (x n : Z) : u64 x -> 0 <= n -> u64 (Z.shiftr x n).
Proof.
  intros Hx Hn. apply u64_of_bits. intros i Hi.
  rewrite Z.testbit_mod_pow2 by lia.
  destruct (Z.ltb_spec i 64) as [Hlt | Hge]; [reflexivity | ].
  rewrite Z.shiftr_spec, (u64_testbit_high x) by (assumption || lia).
  reflexivity.
Qed.

(** ** util.rotl8 is a rotation on 64-bit words *)

Lemma rotl8_testbit (x b i : Z) :
  u64 x -> 0 < b < 64 -> 0 <= i ->
  Z.testbit (util.rotl8 x b) i
  = if i <? 64 then Z.testbit x ((i - b) mod 64) else false.
Proof.
  intros Hx Hb Hi. unfold util.rotl8.
  rewrite Z.lor_spec, Z.land_spec, mask64_ones, Z.testbit_ones_nonneg by lia.
  rewrite Z.shiftl_spec, Z.shiftr_spec by lia.
  destruct (Z.ltb_spec i 64) as [Hlt | Hge].
  - destruct (Z.lt_ge_cases i b) as [Hib | Hib].
    + rewrite (Z.testbit_neg_r x (i - b)) by lia. cbn [andb orb].
      f_equal. apply Z.mod_unique with (q := -1); lia.
    + rewrite (u64_testbit_high x (i + (64 - b))) by (assumption || lia).
      rewrite andb_true_r, orb_false_r.
      f_equal. symmetry. apply Z.mod_small. lia.
  - rewrite andb_false_r. cbn [orb].
    apply u64_testbit_high; [assumption | lia].
Qed.

Lemma rotl8_u64 (x b : Z) : u64 x -> 0 < b < 64 -> u64 (util.rotl8 x b).
Proof.
  intros Hx Hb. apply u64_of_bits. intros i Hi.
  rewrite Z.testbit_mod_pow2, rotl8_testbit by (assumption || lia).
  destruct (i <? 64); reflexivity.
Qed.

Lemma rotl8_rotl8 (x b : Z) :
  u64 x -> 0 < b < 64 -> util.rotl8 (util.rotl8 x b) (64 - b) = x.
Proof.
  intros Hx Hb. apply Z.bits_inj'. intros i Hi.
  rewrite rotl8_testbit by (try apply rotl8_u64; assumption || lia).
  destruct (Z.ltb_spec i 64) as [Hlt | Hge].
  - assert (Hm : 0 <= (i - (64 - b)) mod 64 < 64) by (apply Z.mod_pos_bound; lia).
    rewrite rotl8_testbit by (assumption || lia).
    destruct (Z.ltb_spec ((i - (64 - b)) mod 64) 64) as [_ | Hbad]; [ | lia].
    f_equal. rewrite Zminus_mod_idemp_l.
    replace (i - (64 - b) - b) with (i + (-1) * 64) by lia.
    rewrite Z.mod_add by lia. apply Z.mod_small. lia.
  - symmetry. apply u64_testbit_high; assumption.
Qed.

(** ** Wrapping addition can be undone *)

Lemma add_sub_mod64 (x y : Z) :
  u64 x -> ((x + y) mod 2 ^ 64 - y) mod 2 ^ 64 = x.
Proof.
  intros Hx. rewrite Zminus_mod_idemp_l.
  replace (x + y - y) with x by lia. apply u64_mod_small. exact Hx.
Qed.

Lemma sub_add_mod64 (x y : Z) :
  u64 x -> ((x - y) mod 2 ^ 64 + y) mod 2 ^ 64 = x.
Proof.
  intros Hx. rewrite Zplus_mod_idemp_l.
  replace (x - y + y) with x by lia. apply u64_mod_small. exact Hx.
Qed.

Lemma lxor_cancel_r (a b : Z) : Z.lxor (Z.lxor a b) b = a.
Proof. rewrite Z.lxor_assoc, Z.lxor_nilpotent. apply Z.lxor_0_r. Qed.

Lemma rotl8_rotl8_back (x b : Z) :
  u64 x -> 0 < b < 64 -> util.rotl8 (util.rotl8 x (64 - b)) b = x.
Proof.
  intros Hx Hb.
  replace b with (64 - (64 - b)) at 2 by lia.
  apply rotl8_rotl8; [assumption | lia].
Qed.

Lemma rotl8_rotateLeft64 (x b : Z) :
  u64 x -> 0 < b < 64 -> util.rotl8 x b = Spec.rotateLeft64 x b.
Proof.
  intros Hx Hb. unfold util.rotl8, Spec.rotateLeft64.
  rewrite mask64_ones. f_equal.
  rewrite Z.land_ones by lia. symmetry.
  apply u64_mod_small, u64_shiftr; [assumption | lia].
Qed.

Lemma rotateLeft64_u64 (x b : Z) :
  u64 x -> 0 < b < 64 -> u64 (Spec.rotateLeft64 x b).
Proof.
  intros Hx Hb. rewrite <- rotl8_rotateLeft64 by assumption.
  apply rotl8_u64; assumption.
Qed.

Lemma add64_u64 (a b : Z) : u64 (Spec.add64 a b).
Proof. apply u64_mod. Qed.

Create HintDb u64 discriminated.
#[local] Hint Resolve u64_mod u64_lxor rotl8_u64 rotateLeft64_u64 add64_u64
  : u64.
#[local] Hint Extern 1 (_ < _ < _) => lia : u64.

Ltac word_side := solve [auto 40 with u64].

(** ** The round on 64-bit states *)

Lemma sipround_state64 (s : state) : state64 s -> state64 (_sipround s).
Proof.
  destruct s as [[[v0 v1] v2] v3]. intros (H0 & H1 & H2 & H3).
  cbv beta iota zeta delta [_sipround state64].
  rewrite !land_mask64. refine (conj _ (conj _ (conj _ _))); word_side.
Qed.

Lemma unsipround_state64 (s : state) : state64 s -> state64 (unsipround s).
Proof.
  destruct s as [[[v0 v1] v2] v3]. intros (H0 & H1 & H2 & H3).
  cbv beta iota zeta delta [unsipround state64].
  refine (conj _ (conj _ (conj _ _))); word_side.
Qed.

Lemma unsipround_sipround (s : state) :
  state64 s -> unsipround (_sipround s) = s.
Proof.
  destruct s as [[[v0 v1] v2] v3]. intros (H0 & H1 & H2 & H3).
  cbv beta iota zeta delta [_sipround unsipround].
  rewrite !land_mask64.
  repeat (rewrite ?lxor_cancel_r, ?rotl8_rotl8, ?add_sub_mod64 by word_side).
  reflexivity.
Qed.

Lemma sipround_unsipround (s : state) :
  state64 s -> _sipround (unsipround s) = s.
Proof.
  destruct s as [[[v0 v1] v2] v3]. intros (H0 & H1 & H2 & H3).
  cbv beta iota zeta delta [_sipround unsipround].
  rewrite !land_mask64.
  repeat (rewrite ?lxor_cancel_r, ?rotl8_rotl8_back, ?sub_add_mod64
            by word_side).
  reflexivity.
Qed.

Lemma sipround_sipRound (s : state) :
  state64 s -> _sipround s = Spec.sipRound s.
Proof.
  destruct s as [[[v0 v1] v2] v3]. intros (H0 & H1 & H2 & H3).
  cbv beta iota zeta delta [_sipround Spec.sipRound].
  rewrite !land_mask64. fold (Spec.add64 v0 v1) (Spec.add64 v2 v3).
  rewrite !rotl8_rotateLeft64 by word_side.
  reflexivity.
Qed.

(** ** Bytes and byte order *)

Lemma byte_to_Z_of_Z (z : Z) : Py.byte_to_Z (Py.byte_of_Z z) = z mod 256.
Proof.
  unfold Py.byte_to_Z, Py.byte_of_Z.
  assert (Hz : 0 <= z mod 256 < 256) by (apply Z.mod_pos_bound; lia).
  destruct (Byte.of_N (Z.to_N (z mod 256))) as [b | ] eqn:E.
  - apply Byte.to_of_N in E. rewrite E. apply Z2N.id. lia.
  - apply Byte.of_N_None_iff in E. lia.
Qed.

Lemma byte_to_Z_range (b : byte) : 0 <= Py.byte_to_Z b < 256.
Proof.
  unfold Py.byte_to_Z. pose proof (Byte.to_N_bounded b). lia.
Qed.

Lemma byte_at_div (n i : Z) :
  0 <= i -> Spec.byte_at n i = (n / 2 ^ (8 * i)) mod 256.
Proof.
  intros Hi. unfold Spec.byte_at.
  change 0xff with (Z.ones 8).
  rewrite Z.land_ones, Z.shiftr_div_pow2 by lia. reflexivity.
Qed.

Lemma lor_shiftl_high (a b k : Z) :
  0 <= k -> 0 <= b < 2 ^ k -> Z.lor (Z.shiftl a k) b = a * 2 ^ k + b.
Proof.
  intros Hk Hb. rewrite Z.or_to_plus.
  - rewrite Z.shiftl_mul_pow2 by lia. reflexivity.
  - rewrite <- (Z.mod_small b (2 ^ k)) by lia.
    apply Z.bits_inj'. intros i Hi.
    rewrite Z.land_spec, Z.testbit_0_l.
    destruct (Z.lt_ge_cases i k) as [Hlt | Hge].
    + rewrite Z.shiftl_spec_low by lia. reflexivity.
    + rewrite Z.mod_pow2_bits_high by lia. apply andb_false_r.
Qed.

Lemma swapped_bytes_sum (b0 b1 b2 b3 b4 b5 b6 b7 : Z) :
  is_byte b0 -> is_byte b1 -> is_byte b2 -> is_byte b3 ->
  is_byte b4 -> is_byte b5 -> is_byte b6 -> is_byte b7 ->
  Z.lor (Z.shiftl b0 56) (Z.lor (Z.shiftl b1 48) (Z.lor (Z.shiftl b2 40)
    (Z.lor (Z.shiftl b3 32) (Z.lor (Z.shiftl b4 24) (Z.lor (Z.shiftl b5 16)
      (Z.lor (Z.shiftl b6 8) b7))))))
  = b7 + 256 * (b6 + 256 * (b5 + 256 * (b4 + 256 * (b3 + 256 * (b2 + 256 *
      (b1 + 256 * (b0 + 256 * 0))))))).
Proof.
  unfold is_byte. intros H0 H1 H2 H3 H4 H5 H6 H7.
  rewrite (lor_shiftl_high b6 b7 8) by lia.
  rewrite (lor_shiftl_high b5 _ 16) by lia.
  rewrite (lor_shiftl_high b4 _ 24) by lia.
  rewrite (lor_shiftl_high b3 _ 32) by lia.
  rewrite (lor_shiftl_high b2 _ 40) by lia.
  rewrite (lor_shiftl_high b1 _ 48) by lia.
  rewrite (lor_shiftl_high b0 _ 56) by lia.
  lia.
Qed.

Lemma mod_256_is_byte (a : Z) : is_byte (a mod 256).
Proof. apply Z.mod_pos_bound. lia. Qed.

Lemma big_to_little8_byteSwap64 (n : Z) :
  u64 n -> util.big_to_little8 n = Ok (Spec.byteSwap64 n).
Proof.
  intros [Hlo Hhi]. unfold util.big_to_little8, Py.to_bytes.
  destruct (Z.ltb_spec n 0) as [Hneg | _]; [lia | ].
  destruct (Z.leb_spec (2 ^ (8 * Z.of_nat 8)) n) as [Hbig | _].
  { change (2 ^ (8 * Z.of_nat 8)) with (2 ^ 64) in Hbig. lia. }
  cbn [bind Py.from_bytes Py.le_digits rev app Py.le_value]. f_equal.
  rewrite !byte_to_Z_of_Z. unfold Spec.byteSwap64.
  rewrite !byte_at_div by lia.
  rewrite swapped_bytes_sum by apply mod_256_is_byte.
  rewrite !Z.div_div by lia.
  change (2 ^ (8 * 0)) with 1. rewrite Z.div_1_r.
  reflexivity.
Qed.

Lemma byte_at_testbit (v i j : Z) :
  0 <= i ->
  Z.testbit (Spec.byte_at v i) j
  = (0 <=? j) && (j <? 8) && Z.testbit v (j + 8 * i).
Proof.
  intros Hi. destruct (Z.leb_spec 0 j) as [Hj | Hj].
  - unfold Spec.byte_at. change 0xff with (Z.ones 8).
    rewrite Z.land_spec, Z.shiftr_spec, Z.testbit_ones_nonneg by lia.
    cbn [andb]. apply andb_comm.
  - rewrite Z.testbit_neg_r by lia. reflexivity.
Qed.

Ltac split_comparisons :=
  repeat match goal with
         | |- context [?a <=? ?b] =>
             destruct (Z.leb_spec a b); cbn [andb orb]; try lia
         | |- context [?a <? ?b] =>
             destruct (Z.ltb_spec a b); cbn [andb orb]; try lia
         end.

(* The specification's byteSwap64 does reverse the eight bytes. *)
Lemma byteSwap64_reverses (v i : Z) :
  0 <= i < 8 ->
  Spec.byte_at (Spec.byteSwap64 v) i = Spec.byte_at v (7 - i).
Proof.
  intros Hi.
  assert (Hcases : i = 0 \/ i = 1 \/ i = 2 \/ i = 3 \/ i = 4 \/ i = 5
                   \/ i = 6 \/ i = 7) by lia.
  apply Z.bits_inj'. intros j Hj.
  rewrite !byte_at_testbit by lia.
  destruct (Z.leb_spec 0 j) as [_ | Hbad]; [ | lia].
  destruct (Z.ltb_spec j 8) as [Hlt | Hge]; [ | reflexivity].
  cbn [andb]. unfold Spec.byteSwap64.
  rewrite !Z.lor_spec, !Z.shiftl_spec by lia.
  rewrite !byte_at_testbit by lia.
  destruct Hcases as [-> | [-> | [-> | [-> | [-> | [-> | [-> | ->]]]]]]];
    split_comparisons; rewrite ?orb_false_r; f_equal; lia.
Qed.

(** ** Key encoding *)

Lemma to_bytes_negative (n : Z) (len : nat) (order : Py.byteorder) :
  n < 0 -> Py.to_bytes n len order = Raise (OverflowError NegativeToUnsigned).
Proof.
  intros Hn. unfold Py.to_bytes.
  destruct (Z.ltb_spec n 0); [reflexivity | lia].
Qed.

Lemma to_bytes_too_big (n : Z) (len : nat) (order : Py.byteorder) :
  2 ^ (8 * Z.of_nat len) <= n ->
  Py.to_bytes n len order = Raise (OverflowError IntTooBig).
Proof.
  intros Hn. unfold Py.to_bytes.
  assert (0 < 2 ^ (8 * Z.of_nat len)) by (apply Z.pow_pos_nonneg; lia).
  destruct (Z.ltb_spec n 0); [lia | ].
  destruct (Z.leb_spec (2 ^ (8 * Z.of_nat len)) n); [reflexivity | lia].
Qed.

Lemma key_high_u64 (key : Z) : 0 <= key < 2 ^ 128 -> u64 (Z.shiftr key (8 * 8)).
Proof.
  intros [Hlo Hhi]. rewrite Z.shiftr_div_pow2 by lia. split.
  - apply Z.div_pos; lia.
  - apply Z.div_lt_upper_bound; [lia | ].
    change (2 ^ (8 * 8) * 2 ^ 64) with (2 ^ 128). exact Hhi.
Qed.

Lemma key_low_u64 (key : Z) : u64 (Z.land key 0xffffffffffffffff).
Proof. rewrite land_mask64. apply u64_mod. Qed.

Lemma encode_key_ok (key : Z) :
  0 <= key < 2 ^ 128 -> _encode_key key = Ok (Spec.encodeKey key).
Proof.
  intros Hkey. unfold _encode_key.
  rewrite (big_to_little8_byteSwap64 _ (key_high_u64 key Hkey)).
  rewrite (big_to_little8_byteSwap64 _ (key_low_u64 key)).
  reflexivity.
Qed.

Lemma encode_key_negative (key : Z) :
  key < 0 -> _encode_key key = Raise (OverflowError NegativeToUnsigned).
Proof.
  intros Hkey. unfold _encode_key, util.big_to_little8.
  rewrite to_bytes_negative; [reflexivity | ].
  apply Z.shiftr_neg. exact Hkey.
Qed.

Lemma encode_key_too_big (key : Z) :
  2 ^ 128 <= key -> _encode_key key = Raise (OverflowError IntTooBig).
Proof.
  intros Hkey. unfold _encode_key, util.big_to_little8.
  rewrite to_bytes_too_big; [reflexivity | ].
  rewrite Z.shiftr_div_pow2 by lia.
  apply Z.div_le_lower_bound; [lia | ].
  change (2 ^ (8 * 8) * 2 ^ (8 * Z.of_nat 8)) with (2 ^ 128). exact Hkey.
Qed.

(** ** Message parsing *)

Lemma length_byte_ok (n : Z) :
  Py.to_bytes (n mod 256) 1 Py.little = Ok [Py.byte_of_Z (n mod 256)].
Proof.
  assert (H : 0 <= n mod 256 < 256) by (apply Z.mod_pos_bound; lia).
  unfold Py.to_bytes.
  destruct (Z.ltb_spec (n mod 256) 0); [lia | ].
  change (2 ^ (8 * Z.of_nat 1)) with 256.
  destruct (Z.leb_spec 256 (n mod 256)); [lia | reflexivity].
Qed.

Lemma padded_message_ok (msg : Py.bytes) :
  padded_message msg
  = Ok (msg
        ++ repeat x00 (Z.to_nat ((Z.of_nat (List.length msg) + 1) mod 8))
        ++ [Py.byte_of_Z (Z.of_nat (List.length msg) mod 256)]).
Proof. unfold padded_message. rewrite length_byte_ok. reflexivity. Qed.

Lemma padded_message_length (msg buf : Py.bytes) :
  padded_message msg = Ok buf ->
  Z.of_nat (List.length buf)
  = Z.of_nat (List.length msg) + (Z.of_nat (List.length msg) + 1) mod 8 + 1.
Proof.
  rewrite padded_message_ok. intros [= <-].
  rewrite !length_app, repeat_length. cbn [List.length].
  pose proof (Z.mod_pos_bound (Z.of_nat (List.length msg) + 1) 8 eq_refl).
  lia.
Qed.

Lemma range3_length (start stop step : nat) :
  List.length (Py.range3 start stop step)
  = ((stop - start + step - 1) / step)%nat.
Proof. unfold Py.range3. rewrite length_map, length_seq. reflexivity. Qed.

Lemma split_words_length (buf : Py.bytes) :
  List.length (split_words buf) = ((List.length buf + 7) / 8)%nat.
Proof.
  unfold split_words. rewrite length_map, range3_length.
  f_equal. lia.
Qed.

Lemma message_to_words_ok (msg : Py.bytes) :
  exists buf, padded_message msg = Ok buf
              /\ _message_to_words msg = Ok (split_words buf).
Proof.
  unfold _message_to_words. rewrite padded_message_ok.
  eexists. split; reflexivity.
Qed.

(** ** The engine *)

Lemma repeat_range_nonpos {A : Type} (n : Z) (f : A -> A) (x : A) :
  n <= 0 -> Py.repeat_range n f x = x.
Proof.
  intros Hn. unfold Py.repeat_range.
  destruct n as [ | p | p]; [reflexivity | lia | reflexivity].
Qed.

Lemma compress_ok (c : Z) (msg : Py.bytes) (st : state) :
  exists st', _compress c msg st = Ok st'.
Proof.
  unfold _compress.
  destruct (message_to_words_ok msg) as (buf & _ & ->).
  eexists. reflexivity.
Qed.

Lemma compute_hash_ok (self : SipHash) :
  0 <= key self < 2 ^ 128 -> exists h, compute_hash self = Ok h.
Proof.
  intros Hkey. unfold compute_hash.
  rewrite (encode_key_ok _ Hkey). unfold Spec.encodeKey. cbn [bind].
  destruct (compress_ok (c self) (message self)
              (_initialise_internal_state
                 (Spec.byteSwap64 (Z.shiftr (key self) 64))
                 (Spec.byteSwap64 (Z.land (key self) (2 ^ 64 - 1)))))
    as (st & ->).
  eexists. reflexivity.
Qed.

Lemma compute_hash_raises (self : SipHash) (e : exception) :
  _encode_key (key self) = Raise e -> compute_hash self = Raise e.
Proof. intros H. unfold compute_hash. rewrite H. reflexivity. Qed.

Lemma get_hash_cached (self : SipHash) (h : Z) :
  hash self = Some h -> get_hash self = (Ok h, self).
Proof. intros H. unfold get_hash. rewrite H. reflexivity. Qed.

Lemma get_hash_first_ok (self : SipHash) (h : Z) :
  hash self = None -> compute_hash self = Ok h ->
  get_hash self = (Ok h, set_hash self h).
Proof. intros Hn Hc. unfold get_hash. rewrite Hn, Hc. reflexivity. Qed.

Lemma get_hash_first_raise (self : SipHash) (e : exception) :
  hash self = None -> compute_hash self = Raise e ->
  get_hash self = (Raise e, self).
Proof. intros Hn Hc. unfold get_hash. rewrite Hn, Hc. reflexivity. Qed.

Lemma hexdigest_of_get_hash (self self' : SipHash) (h : Z) :
  get_hash self = (Ok h, self') ->
  hexdigest self = (Ok (Py.string_from 2 (Py.hex h)), self').
Proof. intros H. unfold hexdigest. rewrite H. reflexivity. Qed.

Lemma hexdigest_raise (self self' : SipHash) (e : exception) :
  get_hash self = (Raise e, self') -> hexdigest self = (Raise e, self').
Proof. intros H. unfold hexdigest. rewrite H. reflexivity. Qed.

Lemma compress_word_nonpos (c : Z) :
  c <= 0 -> forall st word, compress_word c st word = compress_word 0 st word.
Proof.
  intros Hc [[[v0 v1] v2] v3] word. unfold compress_word.
  rewrite !repeat_range_nonpos by lia. reflexivity.
Qed.

Lemma fold_compress_nonpos (c : Z) (words : list Z) :
  c <= 0 -> forall st,
  fold_left (compress_word c) words st = fold_left (compress_word 0) words st.
Proof.
  intros Hc. induction words as [ | w ws IH]; intros st; cbn [fold_left].
  - reflexivity.
  - rewrite (compress_word_nonpos c Hc). apply IH.
Qed.

Lemma compute_hash_c_nonpos (k : Z) (msg : Py.bytes) (rc rd : Z) :
  rc <= 0 ->
  compute_hash (__init__ k msg rc rd) = compute_hash (__init__ k msg 0 rd).
Proof.
  intros Hc. unfold compute_hash, _compress, __init__. cbn [key message c d].
  destruct (_encode_key k) as [[k0 k1] | e]; [ | reflexivity].
  cbn [bind]. destruct (_message_to_words msg) as [ws | e]; [ | reflexivity].
  cbn [bind]. rewrite (fold_compress_nonpos rc ws Hc). reflexivity.
Qed.

Lemma compute_hash_d_nonpos (k : Z) (msg : Py.bytes) (rc rd : Z) :
  rd <= 0 ->
  compute_hash (__init__ k msg rc rd) = compute_hash (__init__ k msg rc 0).
Proof.
  intros Hd. unfold compute_hash, __init__. cbn [key message c d].
  destruct (_encode_key k) as [[k0 k1] | e]; [ | reflexivity].
  cbn [bind]. destruct (_compress rc msg _) as [[[[v0 v1] v2] v3] | e];
    [ | reflexivity].
  cbn [bind]. unfold _finalise.
  rewrite !repeat_range_nonpos by lia. reflexivity.
Qed.

Lemma padded_length_aligned_iff (msg buf : Py.bytes) :
  padded_message msg = Ok buf ->
  Z.of_nat (List.length buf) mod 8 = 0
  <-> Z.of_nat (List.length msg) mod 8 = 3
      \/ Z.of_nat (List.length msg) mod 8 = 7.
Proof.
  intros H. rewrite (padded_message_length msg buf H).
  generalize (Z.of_nat (List.length msg)). intros n.
  Z.div_mod_to_equations. lia.
Qed.

(** * Specification properties *)

(** C1: with key 0x000102030405060708090a0b0c0d0e0f, the 15-byte message
    00 01 .. 0e and the default round counts, [get_hash] returns
    0xa129ca6149be45e5 and [hexdigest] returns "a129ca6149be45e5". *)
Theorem known_answer_vector :
  fst (get_hash (__init__default test_key test_message))
    = Ok 0xa129ca6149be45e5
  /\ fst (hexdigest (__init__default test_key test_message))
    = Ok "a129ca6149be45e5"%string.
Proof. split; vm_compute; reflexivity. Qed.

(** C2 (the code departs from the claim): the buffer is the message, then
    [(len + 1) mod 8] zero bytes, then the length byte, but its length is not
    always a multiple of 8.  The empty message gives the 2-byte buffer 00 00,
    and a message of one full block gets one zero byte and the length byte,
    not seven zero bytes and the length byte: its last word is 0x0800 and the
    digest 0x02e13dcc692a8f39, where the words of the block-aligned buffer,
    0x0706050403020100 and 0x0800000000000000, give 0x93f5f5799a932462. *)
Theorem padding_of_block_multiple_not_aligned :
  padded_message [] = Ok [x00; x00]
  /\ padded_message one_block_message = Ok (one_block_message ++ [x00; x08])
  /\ (10 mod 8 <> 0)%nat
  /\ _message_to_words one_block_message = Ok [0x0706050403020100; 0x0800]
  /\ fst (get_hash (__init__default test_key one_block_message))
     = Ok 0x02e13dcc692a8f39
  /\ _finalise 4
       (fold_left (compress_word 2)
          [0x0706050403020100; 0x0800000000000000]
          (_initialise_internal_state 0x0706050403020100 0x0f0e0d0c0b0a0908))
     = 0x93f5f5799a932462.
Proof.
  split; [reflexivity | ]. split; [reflexivity | ].
  split; [discriminate | ].
  repeat split; vm_compute; reflexivity.
Qed.

(** C3 as stated fails: with a key in range and [c = 0] (or [d = -1]) the
    digest request does not raise; it returns a digest computed with no
    compression (resp. finalisation) round. *)
Lemma nonpositive_rounds_accepted :
  let self := __init__ test_key test_message 0 (-1) in
  (c self <= 0 /\ d self <= 0)
  /\ fst (get_hash self) = Ok 0x0f1c1c0309061df5
  /\ ~ raises (fst (get_hash self)).
Proof.
  split; [split; discriminate | ].
  split; [vm_compute; reflexivity | ].
  intros [e He]. vm_compute in He. discriminate He.
Qed.

(** C3, amended: a key of more than 128 bits makes the digest request raise
    OverflowError ("int too big to convert") and leaves the cache unset;
    non-positive round counts are not rejected: for a key in range the
    request returns a digest, the one of zero compression rounds when
    [c <= 0] and of zero finalisation rounds when [d <= 0]. *)
Theorem oversized_key_raises_rounds_unchecked
  (k : Z) (msg : Py.bytes) (rc rd : Z) :
  (2 ^ 128 <= k ->
     get_hash (__init__ k msg rc rd)
     = (Raise (OverflowError IntTooBig), __init__ k msg rc rd))
  /\ (0 <= k < 2 ^ 128 ->
      exists h,
        fst (get_hash (__init__ k msg rc rd)) = Ok h
        /\ (rc <= 0 -> fst (get_hash (__init__ k msg 0 rd)) = Ok h)
        /\ (rd <= 0 -> fst (get_hash (__init__ k msg rc 0)) = Ok h)).
Proof.
  split.
  - intros Hk. apply get_hash_first_raise; [reflexivity | ].
    apply compute_hash_raises, encode_key_too_big. exact Hk.
  - intros Hk.
    destruct (compute_hash_ok (__init__ k msg rc rd) Hk) as [h Hh].
    exists h. split; [ | split].
    + rewrite (get_hash_first_ok (__init__ k msg rc rd) h eq_refl Hh).
      reflexivity.
    + intros Hc. rewrite (compute_hash_c_nonpos k msg rc rd Hc) in Hh.
      rewrite (get_hash_first_ok (__init__ k msg 0 rd) h eq_refl Hh).
      reflexivity.
    + intros Hd. rewrite (compute_hash_d_nonpos k msg rc rd Hd) in Hh.
      rewrite (get_hash_first_ok (__init__ k msg rc 0) h eq_refl Hh).
      reflexivity.
Qed.

Lemma oversized_key_raises_rounds_unchecked_witness :
  get_hash (__init__ (2 ^ 128) test_message 2 4)
  = (Raise (OverflowError IntTooBig), __init__ (2 ^ 128) test_message 2 4)
  /\ exists h,
       fst (get_hash (__init__ test_key test_message (-3) (-1))) = Ok h
       /\ fst (get_hash (__init__ test_key test_message 0 (-1))) = Ok h
       /\ fst (get_hash (__init__ test_key test_message (-3) 0)) = Ok h.
Proof.
  split.
  - apply (proj1 (oversized_key_raises_rounds_unchecked
                    (2 ^ 128) test_message 2 4)).
    lia.
  - destruct (proj2 (oversized_key_raises_rounds_unchecked
                       test_key test_message (-3) (-1)))
      as (h & H1 & H2 & H3).
    + unfold test_key. lia.
    + exists h. split; [exact H1 | ]. split; [apply H2; lia | apply H3; lia].
Defined.

(** C4: [_sipround] is the add-rotate-xor sequence of the specification
    (additions modulo 2^64, left rotations by 13, 32, 16, 17, 32, 21 and
    xors, in that order) on every state of 64-bit words; two rounds from
    (0x7469686173716475, 0x6b617f6d656e6665, 0x6b7f62616d677361,
    0x7c6d6c6a717c6d7b) give (0x4d07749cdd0858e0, 0x0d52f6f62a4f59a4,
    0x634cb3577b01fd3d, 0xa5224d6f55c7d9c8). *)
Theorem sipround_is_spec_round (s : state) :
  state64 s ->
  _sipround s = Spec.sipRound s
  /\ _sipround (_sipround test_round_state)
     = (0x4d07749cdd0858e0, 0x0d52f6f62a4f59a4,
        0x634cb3577b01fd3d, 0xa5224d6f55c7d9c8).
Proof.
  intros Hs. split.
  - apply sipround_sipRound. exact Hs.
  - vm_compute. reflexivity.
Qed.

Lemma sipround_is_spec_round_witness :
  _sipround test_round_state = Spec.sipRound test_round_state
  /\ _sipround (_sipround test_round_state)
     = (0x4d07749cdd0858e0, 0x0d52f6f62a4f59a4,
        0x634cb3577b01fd3d, 0xa5224d6f55c7d9c8).
Proof.
  apply (sipround_is_spec_round test_round_state).
  unfold state64, test_round_state, u64. lia.
Defined.

(** C5: for every key with 0 <= key < 2^128, [_encode_key] returns
    (byteSwap64 (key >> 64), byteSwap64 (key & (2^64 - 1))), where byte [i]
    of byteSwap64 (x) is byte [7 - i] of [x]; for the key
    0x000102030405060708090a0b0c0d0e0f that is k0 = 0x0706050403020100 and
    k1 = 0x0f0e0d0c0b0a0908. *)
Theorem encode_key_byte_swaps_halves (k : Z) :
  0 <= k < 2 ^ 128 ->
  _encode_key k
  = Ok (Spec.byteSwap64 (Z.shiftr k 64),
        Spec.byteSwap64 (Z.land k (2 ^ 64 - 1)))
  /\ (forall x i, 0 <= i < 8 ->
        Spec.byte_at (Spec.byteSwap64 x) i = Spec.byte_at x (7 - i))
  /\ _encode_key test_key = Ok (0x0706050403020100, 0x0f0e0d0c0b0a0908).
Proof.
  intros Hk. split; [ | split].
  - apply encode_key_ok. exact Hk.
  - exact byteSwap64_reverses.
  - vm_compute. reflexivity.
Qed.

Lemma encode_key_byte_swaps_halves_witness :
  _encode_key test_key
  = Ok (Spec.byteSwap64 (Z.shiftr test_key 64),
        Spec.byteSwap64 (Z.land test_key (2 ^ 64 - 1)))
  /\ Spec.byte_at (Spec.byteSwap64 test_key) 0 = Spec.byte_at test_key (7 - 0)
  /\ _encode_key test_key = Ok (0x0706050403020100, 0x0f0e0d0c0b0a0908).
Proof.
  destruct (encode_key_byte_swaps_halves test_key) as (Henc & Hrev & Hvec).
  - unfold test_key. lia.
  - split; [exact Henc | ]. split; [apply Hrev; lia | exact Hvec].
Defined.

(** C6: on the empty message [_message_to_words] returns exactly one word,
    0; on a message whose length is a multiple of 8 it returns exactly
    length/8 + 1 words. *)
Theorem words_of_empty_and_block_multiples (msg : Py.bytes) :
  (List.length msg mod 8 = 0)%nat ->
  _message_to_words [] = Ok [0]
  /\ exists ws, _message_to_words msg = Ok ws
               /\ List.length ws = (List.length msg / 8 + 1)%nat.
Proof.
  intros Hlen. split; [reflexivity | ].
  destruct (message_to_words_ok msg) as (buf & Hbuf & Hws).
  exists (split_words buf). split; [exact Hws | ].
  rewrite split_words_length.
  pose proof (padded_message_length msg buf Hbuf) as Hl.
  assert (Hn : Z.of_nat (List.length msg) mod 8 = 0).
  { change 8 with (Z.of_nat 8). rewrite <- Nat2Z.inj_mod, Hlen. reflexivity. }
  assert (Hpad : (Z.of_nat (List.length msg) + 1) mod 8 = 1).
  { revert Hn. generalize (Z.of_nat (List.length msg)). intros n Hn.
    Z.div_mod_to_equations. lia. }
  rewrite Hpad in Hl.
  assert (Hb : List.length buf = (List.length msg + 2)%nat) by lia.
  rewrite Hb.
  apply Nat.Div0.div_exact in Hlen. rewrite Hlen at 1.
  replace (8 * (List.length msg / 8) + 2 + 7)%nat
    with (1 + (List.length msg / 8 + 1) * 8)%nat by lia.
  rewrite Nat.div_add by lia. reflexivity.
Qed.

Lemma words_of_empty_and_block_multiples_witness :
  _message_to_words [] = Ok [0]
  /\ exists ws, _message_to_words one_block_message = Ok ws
               /\ List.length ws = (List.length one_block_message / 8 + 1)%nat.
Proof.
  apply (words_of_empty_and_block_multiples one_block_message).
  reflexivity.
Defined.

(** C7: two calls of [get_hash] on one engine give the same outcome, for
    every key, message, c and d; when the first call returns a digest it is
    stored in the [hash] field, and a call on an engine whose [hash] field is
    set returns that field and leaves the engine as it is, whatever the other
    fields hold: nothing is recomputed.  With a key of at most 128 bits the
    first call does return a digest. *)
Theorem get_hash_twice_same_cached (k : Z) (msg : Py.bytes) (rc rd : Z) :
  let self := __init__ k msg rc rd in
  fst (get_hash (snd (get_hash self))) = fst (get_hash self)
  /\ (forall h, fst (get_hash self) = Ok h ->
                hash (snd (get_hash self)) = Some h)
  /\ (forall other h, hash other = Some h -> get_hash other = (Ok h, other))
  /\ (0 <= k < 2 ^ 128 -> exists h, fst (get_hash self) = Ok h).
Proof.
  intros self. split; [ | split; [ | split]].
  - destruct (compute_hash self) as [h | e] eqn:E.
    + rewrite (get_hash_first_ok self h eq_refl E). cbn [fst snd].
      rewrite (get_hash_cached (set_hash self h) h eq_refl). reflexivity.
    + rewrite (get_hash_first_raise self e eq_refl E). cbn [fst snd].
      rewrite (get_hash_first_raise self e eq_refl E). reflexivity.
  - intros h. destruct (compute_hash self) as [h' | e] eqn:E.
    + rewrite (get_hash_first_ok self h' eq_refl E). cbn [fst snd].
      intros [= ->]. reflexivity.
    + rewrite (get_hash_first_raise self e eq_refl E). cbn [fst].
      discriminate.
  - apply get_hash_cached.
  - intros Hk. destruct (compute_hash_ok self Hk) as [h Hh].
    exists h. rewrite (get_hash_first_ok self h eq_refl Hh). reflexivity.
Qed.

Lemma get_hash_twice_same_cached_witness :
  exists h,
    fst (get_hash (__init__default test_key test_message)) = Ok h
    /\ hash (snd (get_hash (__init__default test_key test_message))) = Some h
    /\ get_hash (snd (get_hash (__init__default test_key test_message)))
       = (Ok h, snd (get_hash (__init__default test_key test_message))).
Proof.
  destruct (get_hash_twice_same_cached test_key test_message 2 4)
    as (_ & Hstore & Hcached & Hret).
  destruct Hret as [h Hh]; [unfold test_key; lia | ].
  exists h. split; [exact Hh | ].
  split; [exact (Hstore h Hh) | exact (Hcached _ h (Hstore h Hh))].
Defined.

(** C8: on a well-formed input (any message, a key with 0 <= key < 2^128,
    positive c and d) no step raises: key encoding, message parsing and
    compression return, and so do [get_hash] and [hexdigest]; state
    initialisation and finalisation cannot raise at all. *)
Theorem pipeline_total_on_well_formed_input
  (k : Z) (msg : Py.bytes) (rc rd : Z) :
  0 <= k < 2 ^ 128 -> 0 < rc -> 0 < rd ->
  (exists k0 k1, _encode_key k = Ok (k0, k1))
  /\ (exists ws, _message_to_words msg = Ok ws)
  /\ (forall st, exists st', _compress rc msg st = Ok st')
  /\ (exists h, fst (get_hash (__init__ k msg rc rd)) = Ok h)
  /\ (exists s, fst (hexdigest (__init__ k msg rc rd)) = Ok s).
Proof.
  intros Hk _ _.
  destruct (compute_hash_ok (__init__ k msg rc rd) Hk) as [h Hh].
  pose proof (get_hash_first_ok (__init__ k msg rc rd) h eq_refl Hh) as Hg.
  split; [ | split; [ | split; [ | split]]].
  - rewrite (encode_key_ok k Hk). unfold Spec.encodeKey.
    eexists. eexists. reflexivity.
  - destruct (message_to_words_ok msg) as (buf & _ & Hws).
    exists (split_words buf). exact Hws.
  - intros st. apply compress_ok.
  - exists h. rewrite Hg. reflexivity.
  - eexists. rewrite (hexdigest_of_get_hash _ _ h Hg). reflexivity.
Qed.

Lemma pipeline_total_on_well_formed_input_witness :
  (exists k0 k1, _encode_key test_key = Ok (k0, k1))
  /\ (exists ws, _message_to_words test_message = Ok ws)
  /\ (forall st, exists st', _compress 2 test_message st = Ok st')
  /\ (exists h, fst (get_hash (__init__ test_key test_message 2 4)) = Ok h)
  /\ (exists s, fst (hexdigest (__init__ test_key test_message 2 4)) = Ok s).
Proof.
  apply (pipeline_total_on_well_formed_input test_key test_message 2 4).
  - unfold test_key. lia.
  - lia.
  - lia.
Defined.

(** C9: [_sipround] is a permutation of the states of four 64-bit words: it
    maps such states to such states, two distinct states never have the same
    image, and every state is the image of one. *)
Theorem sipround_is_a_permutation :
  (forall s, state64 s -> state64 (_sipround s))
  /\ (forall s t, state64 s -> state64 t ->
                 _sipround s = _sipround t -> s = t)
  /\ (forall t, state64 t -> exists s, state64 s /\ _sipround s = t).
Proof.
  split; [exact sipround_state64 | split].
  - intros s t Hs Ht Heq.
    rewrite <- (unsipround_sipround s Hs), <- (unsipround_sipround t Ht).
    rewrite Heq. reflexivity.
  - intros t Ht. exists (unsipround t). split.
    + apply unsipround_state64. exact Ht.
    + apply sipround_unsipround. exact Ht.
Qed.

Lemma sipround_is_a_permutation_witness :
  state64 (_sipround test_round_state)
  /\ exists s, state64 s /\ _sipround s = test_round_state.
Proof.
  destruct sipround_is_a_permutation as (Hclosed & _ & Honto).
  assert (H : state64 test_round_state)
    by (unfold state64, test_round_state, u64; lia).
  split; [exact (Hclosed _ H) | exact (Honto _ H)].
Defined.

(** C10: with a negative key the constructor returns an engine whose cache
    is unset, and the first [get_hash] (or [hexdigest]) raises OverflowError
    from [to_bytes] in the key encoding ("can't convert negative int to
    unsigned"); the engine is left as it was, cache unset. *)
Theorem negative_key_raises_at_first_digest
  (k : Z) (msg : Py.bytes) (rc rd : Z) :
  k < 0 ->
  let self := __init__ k msg rc rd in
  hash self = None
  /\ util.big_to_little8 (Z.shiftr k (8 * 8))
     = Raise (OverflowError NegativeToUnsigned)
  /\ get_hash self = (Raise (OverflowError NegativeToUnsigned), self)
  /\ hexdigest self = (Raise (OverflowError NegativeToUnsigned), self)
  /\ hash (snd (get_hash self)) = None.
Proof.
  intros Hk self.
  assert (Hg : get_hash self = (Raise (OverflowError NegativeToUnsigned), self)).
  { apply get_hash_first_raise; [reflexivity | ].
    apply compute_hash_raises, encode_key_negative. exact Hk. }
  split; [reflexivity | ]. split.
  - unfold util.big_to_little8. rewrite to_bytes_negative; [reflexivity | ].
    apply Z.shiftr_neg. exact Hk.
  - split; [exact Hg | ]. split.
    + apply hexdigest_raise. exact Hg.
    + rewrite Hg. reflexivity.
Qed.

Lemma negative_key_raises_at_first_digest_witness :
  hash (__init__ (-1) test_message 2 4) = None
  /\ util.big_to_little8 (Z.shiftr (-1) (8 * 8))
     = Raise (OverflowError NegativeToUnsigned)
  /\ get_hash (__init__ (-1) test_message 2 4)
     = (Raise (OverflowError NegativeToUnsigned),
        __init__ (-1) test_message 2 4)
  /\ hexdigest (__init__ (-1) test_message 2 4)
     = (Raise (OverflowError NegativeToUnsigned),
        __init__ (-1) test_message 2 4)
  /\ hash (snd (get_hash (__init__ (-1) test_message 2 4))) = None.
Proof.
  apply (negative_key_raises_at_first_digest (-1) test_message 2 4).
  lia.
Defined.

(** * Further properties of the code *)

(** ** util.rotl8 *)

Lemma rotl8_zero_bits (x : Z) : u64 x -> util.rotl8 x 0 = x.
Proof.
  intros Hx. unfold util.rotl8.
  rewrite Z.shiftl_0_r, land_mask64, (u64_mod_small x Hx).
  replace (Z.shiftr x (64 - 0)) with 0; [apply Z.lor_0_r | ].
  symmetry. apply Z.bits_inj'. intros i Hi.
  rewrite Z.shiftr_spec, Z.testbit_0_l by lia.
  apply u64_testbit_high; [assumption | lia].
Qed.

Lemma rotl8_full_turn (x : Z) : u64 x -> util.rotl8 x 64 = x.
Proof.
  intros Hx. unfold util.rotl8.
  replace (Z.land (Z.shiftl x 64) 0xffffffffffffffff) with 0.
  - change (64 - 64) with 0. rewrite Z.shiftr_0_r. apply Z.lor_0_l.
  - symmetry. rewrite land_mask64, Z.shiftl_mul_pow2 by lia.
    apply Z.mod_mul. lia.
Qed.

Lemma rotl8_compose (x a b : Z) :
  u64 x -> 0 < a < 64 -> 0 < b < 64 -> (a + b) mod 64 <> 0 ->
  util.rotl8 (util.rotl8 x a) b = util.rotl8 x ((a + b) mod 64).
Proof.
  intros Hx Ha Hb Hr.
  assert (Hm : 0 <= (a + b) mod 64 < 64) by (apply Z.mod_pos_bound; lia).
  apply Z.bits_inj'. intros i Hi.
  rewrite (rotl8_testbit (util.rotl8 x a) b i)
    by (try apply rotl8_u64; assumption || lia).
  rewrite (rotl8_testbit x ((a + b) mod 64) i) by (assumption || lia).
  destruct (Z.ltb_spec i 64) as [Hlt | Hge]; [ | reflexivity].
  assert (Hib : 0 <= (i - b) mod 64 < 64) by (apply Z.mod_pos_bound; lia).
  rewrite rotl8_testbit by (assumption || lia).
  destruct (Z.ltb_spec ((i - b) mod 64) 64) as [_ | Hbad]; [ | lia].
  f_equal. rewrite Zminus_mod_idemp_l, Zminus_mod_idemp_r.
  f_equal. lia.
Qed.

(** X1: on a 64-bit word and for 0 < bits < 64, [rotl8] is the left
    rotation: the result is a 64-bit word whose bit [i] is bit
    [(i - bits) mod 64] of the argument. *)
Theorem rotl8_rotates_bits (x bits i : Z) :
  u64 x -> 0 < bits < 64 -> 0 <= i < 64 ->
  u64 (util.rotl8 x bits)
  /\ Z.testbit (util.rotl8 x bits) i = Z.testbit x ((i - bits) mod 64).
Proof.
  intros Hx Hb Hi. split.
  - apply rotl8_u64; assumption.
  - rewrite rotl8_testbit by (assumption || lia).
    destruct (Z.ltb_spec i 64); [reflexivity | lia].
Qed.

Lemma rotl8_rotates_bits_witness :
  u64 (util.rotl8 0x8000000000000001 13)
  /\ Z.testbit (util.rotl8 0x8000000000000001 13) 12
     = Z.testbit 0x8000000000000001 ((12 - 13) mod 64).
Proof.
  apply (rotl8_rotates_bits 0x8000000000000001 13 12); unfold u64; lia.
Defined.

(** X2: rotations compose by adding the bit counts modulo 64, and a rotation
    by [bits] is undone by a rotation by [64 - bits]. *)
Theorem rotl8_composes_and_inverts (x a b : Z) :
  u64 x -> 0 < a < 64 -> 0 < b < 64 ->
  ((a + b) mod 64 <> 0 ->
     util.rotl8 (util.rotl8 x a) b = util.rotl8 x ((a + b) mod 64))
  /\ util.rotl8 (util.rotl8 x a) (64 - a) = x.
Proof.
  intros Hx Ha Hb. split.
  - intros Hr. apply rotl8_compose; assumption.
  - apply rotl8_rotl8; assumption.
Qed.

Lemma rotl8_composes_and_inverts_witness :
  util.rotl8 (util.rotl8 0x0123456789abcdef 13) 60
  = util.rotl8 0x0123456789abcdef ((13 + 60) mod 64)
  /\ util.rotl8 (util.rotl8 0x0123456789abcdef 13) (64 - 13)
     = 0x0123456789abcdef.
Proof.
  destruct (rotl8_composes_and_inverts 0x0123456789abcdef 13 60)
    as [Hc Hi]; try (unfold u64; lia).
  split; [apply Hc; discriminate | exact Hi].
Defined.

(** X3: at the two ends of the range of [bits], 0 and 64, [rotl8] returns a
    64-bit argument unchanged. *)
Theorem rotl8_by_0_or_64_is_identity (x : Z) :
  u64 x -> util.rotl8 x 0 = x /\ util.rotl8 x 64 = x.
Proof.
  intros Hx. split; [apply rotl8_zero_bits | apply rotl8_full_turn]; exact Hx.
Qed.

Lemma rotl8_by_0_or_64_is_identity_witness :
  util.rotl8 0xfedcba9876543210 0 = 0xfedcba9876543210
  /\ util.rotl8 0xfedcba9876543210 64 = 0xfedcba9876543210.
Proof.
  apply (rotl8_by_0_or_64_is_identity 0xfedcba9876543210). unfold u64. lia.
Defined.

(** ** Digits and values of byte strings *)

Lemma byte_of_Z_to_Z (b : byte) (v : Z) :
  Py.byte_of_Z (Py.byte_to_Z b + 256 * v) = b.
Proof.
  pose proof (byte_to_Z_range b) as Hb. unfold Py.byte_of_Z.
  replace ((Py.byte_to_Z b + 256 * v) mod 256) with (Py.byte_to_Z b).
  - unfold Py.byte_to_Z. rewrite N2Z.id, Byte.of_to_N. reflexivity.
  - replace (Py.byte_to_Z b + 256 * v) with (Py.byte_to_Z b + v * 256) by lia.
    rewrite Z.mod_add by lia. symmetry. apply Z.mod_small. exact Hb.
Qed.

Lemma le_digits_length (len : nat) (n : Z) :
  List.length (Py.le_digits len n) = len.
Proof.
  revert n. induction len as [ | len IH]; intros n; cbn [Py.le_digits List.length].
  - reflexivity.
  - rewrite IH. reflexivity.
Qed.

Lemma le_value_range (bs : Py.bytes) :
  0 <= Py.le_value bs < 2 ^ (8 * Z.of_nat (List.length bs)).
Proof.
  induction bs as [ | b bs IH]; cbn [Py.le_value List.length].
  - cbn. lia.
  - pose proof (byte_to_Z_range b) as Hb.
    rewrite Nat2Z.inj_succ.
    replace (8 * Z.succ (Z.of_nat (List.length bs)))
      with (8 + 8 * Z.of_nat (List.length bs)) by lia.
    rewrite Z.pow_add_r by lia. change (2 ^ 8) with 256. lia.
Qed.

Lemma le_digits_le_value (bs : Py.bytes) :
  Py.le_digits (List.length bs) (Py.le_value bs) = bs.
Proof.
  induction bs as [ | b bs IH]; cbn [Py.le_value Py.le_digits List.length].
  - reflexivity.
  - rewrite byte_of_Z_to_Z. f_equal.
    pose proof (byte_to_Z_range b) as Hb.
    replace ((Py.byte_to_Z b + 256 * Py.le_value bs) / 256)
      with (Py.le_value bs); [exact IH | ].
    replace (Py.byte_to_Z b + 256 * Py.le_value bs)
      with (Py.byte_to_Z b + Py.le_value bs * 256) by lia.
    rewrite Z.div_add by lia.
    rewrite (Z.div_small (Py.byte_to_Z b) 256) by exact Hb. lia.
Qed.

Lemma le_value_le_digits (len : nat) (n : Z) :
  Py.le_value (Py.le_digits len n) = n mod 2 ^ (8 * Z.of_nat len).
Proof.
  revert n. induction len as [ | len IH]; intros n;
    cbn [Py.le_digits Py.le_value].
  - cbn. symmetry. apply Z.mod_1_r.
  - rewrite byte_to_Z_of_Z, IH, Nat2Z.inj_succ.
    replace (8 * Z.succ (Z.of_nat len)) with (8 + 8 * Z.of_nat len) by lia.
    rewrite Z.pow_add_r by lia. change (2 ^ 8) with 256.
    symmetry. apply Z.rem_mul_r; [lia | ].
    apply Z.pow_pos_nonneg; lia.
Qed.

(** ** util.big_to_little8 *)

Lemma big_to_little8_value (n : Z) :
  u64 n ->
  util.big_to_little8 n = Ok (Py.le_value (rev (Py.le_digits 8 n))).
Proof.
  intros [Hlo Hhi]. unfold util.big_to_little8, Py.to_bytes.
  destruct (Z.ltb_spec n 0) as [Hneg | _]; [lia | ].
  destruct (Z.leb_spec (2 ^ (8 * Z.of_nat 8)) n) as [Hbig | _].
  { change (2 ^ (8 * Z.of_nat 8)) with (2 ^ 64) in Hbig. lia. }
  reflexivity.
Qed.

Lemma swapped_value_u64 (n : Z) : u64 (Py.le_value (rev (Py.le_digits 8 n))).
Proof.
  pose proof (le_value_range (rev (Py.le_digits 8 n))) as H.
  rewrite length_rev, le_digits_length in H. exact H.
Qed.

Lemma big_to_little8_u64 (n m : Z) :
  util.big_to_little8 n = Ok m -> u64 n /\ u64 m.
Proof.
  intros H. assert (Hn : u64 n).
  { unfold util.big_to_little8, Py.to_bytes in H.
    destruct (Z.ltb_spec n 0) as [Hneg | Hpos]; [discriminate H | ].
    destruct (Z.leb_spec (2 ^ (8 * Z.of_nat 8)) n) as [Hbig | Hsmall];
      [discriminate H | ].
    change (2 ^ (8 * Z.of_nat 8)) with (2 ^ 64) in Hsmall.
    unfold u64. lia. }
  split; [exact Hn | ].
  rewrite (big_to_little8_value n Hn) in H. injection H as <-.
  apply swapped_value_u64.
Qed.

Lemma big_to_little8_twice (n m : Z) :
  util.big_to_little8 n = Ok m -> util.big_to_little8 m = Ok n.
Proof.
  intros H. destruct (big_to_little8_u64 n m H) as [Hn Hm].
  rewrite (big_to_little8_value m Hm). f_equal.
  rewrite (big_to_little8_value n Hn) in H. injection H as <-.
  replace 8%nat with (List.length (rev (Py.le_digits 8 n))) at 1
    by (rewrite length_rev; apply le_digits_length).
  rewrite le_digits_le_value, rev_involutive, le_value_le_digits.
  apply u64_mod_small. exact Hn.
Qed.

Lemma big_to_little8_outcome (n : Z) :
  (n < 0 -> util.big_to_little8 n = Raise (OverflowError NegativeToUnsigned))
  /\ (2 ^ 64 <= n -> util.big_to_little8 n = Raise (OverflowError IntTooBig))
  /\ (u64 n -> exists m, util.big_to_little8 n = Ok m /\ u64 m).
Proof.
  split; [ | split].
  - intros Hn. unfold util.big_to_little8.
    rewrite to_bytes_negative by exact Hn. reflexivity.
  - intros Hn. unfold util.big_to_little8.
    rewrite to_bytes_too_big by exact Hn. reflexivity.
  - intros Hn. eexists. split; [apply big_to_little8_value; exact Hn | ].
    apply swapped_value_u64.
Qed.

(** X4: [big_to_little8] undoes itself: when it returns [m] for [n], it
    returns [n] for [m], and both are 64-bit values. *)
Theorem big_to_little8_is_an_involution (n m : Z) :
  util.big_to_little8 n = Ok m ->
  util.big_to_little8 m = Ok n /\ u64 n /\ u64 m.
Proof.
  intros H. split; [apply big_to_little8_twice; exact H | ].
  apply big_to_little8_u64. exact H.
Qed.

Lemma big_to_little8_is_an_involution_witness :
  util.big_to_little8 0x0f0e0d0c0b0a0908 = Ok 0x08090a0b0c0d0e0f
  /\ u64 0x08090a0b0c0d0e0f /\ u64 0x0f0e0d0c0b0a0908.
Proof.
  apply (big_to_little8_is_an_involution
           0x08090a0b0c0d0e0f 0x0f0e0d0c0b0a0908).
  reflexivity.
Defined.

(** X5: [big_to_little8] returns exactly on the values of 64 bits: a
    negative argument raises OverflowError (negative to unsigned), one of
    2^64 or more raises OverflowError (too big), and any other argument gives
    a 64-bit value. *)
Theorem big_to_little8_domain (n : Z) :
  (n < 0 -> util.big_to_little8 n = Raise (OverflowError NegativeToUnsigned))
  /\ (2 ^ 64 <= n -> util.big_to_little8 n = Raise (OverflowError IntTooBig))
  /\ (0 <= n < 2 ^ 64 ->
      exists m, util.big_to_little8 n = Ok m /\ 0 <= m < 2 ^ 64).
Proof. exact (big_to_little8_outcome n). Qed.

Lemma big_to_little8_domain_witness :
  util.big_to_little8 (-5) = Raise (OverflowError NegativeToUnsigned)
  /\ util.big_to_little8 (2 ^ 64) = Raise (OverflowError IntTooBig)
  /\ exists m, util.big_to_little8 1 = Ok m /\ 0 <= m < 2 ^ 64.
Proof.
  split; [ | split].
  - apply (proj1 (big_to_little8_domain (-5))). lia.
  - apply (proj1 (proj2 (big_to_little8_domain (2 ^ 64)))). lia.
  - apply (proj2 (proj2 (big_to_little8_domain 1))). lia.
Defined.

(** ** _encode_key *)

Lemma key_split (k : Z) :
  k = Z.shiftr k (8 * 8) * 2 ^ 64 + Z.land k 0xffffffffffffffff.
Proof.
  rewrite land_mask64, Z.shiftr_div_pow2 by lia.
  change (2 ^ (8 * 8)) with (2 ^ 64).
  rewrite Z.mul_comm. apply Z.div_mod. lia.
Qed.

Lemma encode_key_halves (k k0 k1 : Z) :
  _encode_key k = Ok (k0, k1) ->
  util.big_to_little8 (Z.shiftr k (8 * 8)) = Ok k0
  /\ util.big_to_little8 (Z.land k 0xffffffffffffffff) = Ok k1.
Proof.
  unfold _encode_key. intros H.
  destruct (util.big_to_little8 (Z.shiftr k (8 * 8))) as [a | e];
    [ | discriminate H].
  destruct (util.big_to_little8 (Z.land k 0xffffffffffffffff)) as [b | e];
    [ | discriminate H].
  cbn [bind] in H. injection H as <- <-. split; reflexivity.
Qed.

Lemma encode_key_decodes (k k0 k1 : Z) :
  _encode_key k = Ok (k0, k1) ->
  exists hi lo,
    util.big_to_little8 k0 = Ok hi /\ util.big_to_little8 k1 = Ok lo
    /\ k = hi * 2 ^ 64 + lo.
Proof.
  intros H. destruct (encode_key_halves k k0 k1 H) as [H0 H1].
  exists (Z.shiftr k (8 * 8)), (Z.land k 0xffffffffffffffff).
  split; [apply big_to_little8_twice; exact H0 | ].
  split; [apply big_to_little8_twice; exact H1 | apply key_split].
Qed.

Lemma encode_key_in_range (k k0 k1 : Z) :
  _encode_key k = Ok (k0, k1) -> 0 <= k < 2 ^ 128 /\ u64 k0 /\ u64 k1.
Proof.
  intros H. destruct (encode_key_halves k k0 k1 H) as [H0 H1].
  destruct (big_to_little8_u64 _ _ H0) as [Hhi Hk0].
  destruct (big_to_little8_u64 _ _ H1) as [Hlo Hk1].
  split; [ | split; assumption].
  rewrite (key_split k). unfold u64 in Hhi, Hlo.
  change (2 ^ 128) with (2 ^ 64 * 2 ^ 64). lia.
Qed.

Lemma encode_key_injective (k k' : Z) (halves : Z * Z) :
  _encode_key k = Ok halves -> _encode_key k' = Ok halves -> k = k'.
Proof.
  destruct halves as [k0 k1]. intros H H'.
  destruct (encode_key_decodes k k0 k1 H) as (hi & lo & Hhi & Hlo & ->).
  destruct (encode_key_decodes k' k0 k1 H') as (hi' & lo' & Hhi' & Hlo' & ->).
  rewrite Hhi in Hhi'. rewrite Hlo in Hlo'.
  injection Hhi' as <-. injection Hlo' as <-. reflexivity.
Qed.

(** X6: [_encode_key] returns a pair exactly for the keys of 128 bits, and
    then both halves are 64-bit values. *)
Theorem encode_key_returns_iff_128_bits (k : Z) :
  (exists k0 k1, _encode_key k = Ok (k0, k1)) <-> 0 <= k < 2 ^ 128.
Proof.
  split.
  - intros (k0 & k1 & H). apply (encode_key_in_range k k0 k1 H).
  - intros Hk. rewrite (encode_key_ok k Hk). unfold Spec.encodeKey.
    eexists. eexists. reflexivity.
Qed.

Lemma encode_key_returns_iff_128_bits_witness :
  (exists k0 k1, _encode_key test_key = Ok (k0, k1))
  /\ ~ (exists k0 k1, _encode_key (2 ^ 128) = Ok (k0, k1)).
Proof.
  split.
  - apply (proj2 (encode_key_returns_iff_128_bits test_key)).
    unfold test_key. lia.
  - intros H.
    apply (proj1 (encode_key_returns_iff_128_bits (2 ^ 128))) in H. lia.
Defined.

(** X7: the key is recovered from the two halves [_encode_key] returns:
    swapping the bytes of each half back gives the high and low 64 bits of
    the key, so two keys with the same halves are equal. *)
Theorem encode_key_loses_nothing (k k0 k1 : Z) :
  _encode_key k = Ok (k0, k1) ->
  (exists hi lo,
     util.big_to_little8 k0 = Ok hi /\ util.big_to_little8 k1 = Ok lo
     /\ k = hi * 2 ^ 64 + lo)
  /\ (forall k', _encode_key k' = Ok (k0, k1) -> k' = k).
Proof.
  intros H. split.
  - apply encode_key_decodes. exact H.
  - intros k' H'. apply (encode_key_injective k' k (k0, k1)); assumption.
Qed.

Lemma encode_key_loses_nothing_witness :
  (exists hi lo,
     util.big_to_little8 0x0706050403020100 = Ok hi
     /\ util.big_to_little8 0x0f0e0d0c0b0a0908 = Ok lo
     /\ test_key = hi * 2 ^ 64 + lo)
  /\ (forall k',
        _encode_key k' = Ok (0x0706050403020100, 0x0f0e0d0c0b0a0908) ->
        k' = test_key).
Proof.
  apply (encode_key_loses_nothing
           test_key 0x0706050403020100 0x0f0e0d0c0b0a0908).
  reflexivity.
Defined.

(** ** _initialise_internal_state *)

Lemma lxor_cancel_l (a b : Z) : Z.lxor a (Z.lxor a b) = b.
Proof. rewrite <- Z.lxor_assoc, Z.lxor_nilpotent. apply Z.lxor_0_l. Qed.

Lemma lxor_same_left (k a b : Z) :
  Z.lxor (Z.lxor k a) (Z.lxor k b) = Z.lxor a b.
Proof.
  rewrite (Z.lxor_comm k a), Z.lxor_assoc, lxor_cancel_l. reflexivity.
Qed.

Lemma initial_state64 (k0 k1 : Z) :
  u64 k0 -> u64 k1 -> state64 (_initialise_internal_state k0 k1).
Proof.
  intros H0 H1. cbv beta iota zeta delta [_initialise_internal_state state64].
  refine (conj _ (conj _ (conj _ _))); apply u64_lxor;
    try assumption; unfold u64; lia.
Qed.

(** X8: the initial state of two 64-bit key halves is a state of 64-bit
    words; it determines the halves ([k0] is [v0 ^ 0x736f6d6570736575], [k1]
    is [v1 ^ 0x646f72616e646f6d]), and [v0 ^ v2] and [v1 ^ v3] are the same
    two constants whatever the key. *)
Theorem initial_state_shape (k0 k1 : Z) :
  u64 k0 -> u64 k1 ->
  let '(v0, v1, v2, v3) := _initialise_internal_state k0 k1 in
  state64 (v0, v1, v2, v3)
  /\ Z.lxor v0 0x736f6d6570736575 = k0
  /\ Z.lxor v1 0x646f72616e646f6d = k1
  /\ Z.lxor v0 v2 = 0x1f160a001e161714
  /\ Z.lxor v1 v3 = 0x100a160317100a1e.
Proof.
  intros H0 H1.
  pose proof (initial_state64 k0 k1 H0 H1) as Hs.
  cbv beta iota zeta delta [_initialise_internal_state] in *.
  split; [exact Hs | ].
  split; [apply lxor_cancel_r | ]. split; [apply lxor_cancel_r | ].
  split; apply lxor_same_left.
Qed.

Lemma initial_state_shape_witness :
  let '(v0, v1, v2, v3) :=
    _initialise_internal_state 0x0706050403020100 0x0f0e0d0c0b0a0908 in
  state64 (v0, v1, v2, v3)
  /\ Z.lxor v0 0x736f6d6570736575 = 0x0706050403020100
  /\ Z.lxor v1 0x646f72616e646f6d = 0x0f0e0d0c0b0a0908
  /\ Z.lxor v0 v2 = 0x1f160a001e161714
  /\ Z.lxor v1 v3 = 0x100a160317100a1e.
Proof.
  apply (initial_state_shape 0x0706050403020100 0x0f0e0d0c0b0a0908);
    unfold u64; lia.
Defined.

(** ** _message_to_words *)

Lemma slice_length_le (bs : Py.bytes) (i : nat) :
  (List.length (Py.slice bs i (i + 8)) <= 8)%nat.
Proof.
  unfold Py.slice. rewrite length_firstn. lia.
Qed.

Lemma from_bytes_little_u64 (bs : Py.bytes) :
  (List.length bs <= 8)%nat -> u64 (Py.from_bytes bs Py.little).
Proof.
  intros Hlen. pose proof (le_value_range bs) as [Hlo Hhi].
  cbn [Py.from_bytes]. split; [exact Hlo | ].
  apply Z.lt_le_trans with (1 := Hhi).
  apply Z.pow_le_mono_r; lia.
Qed.

Lemma split_words_u64 (buf : Py.bytes) : Forall u64 (split_words buf).
Proof.
  unfold split_words. apply Forall_map, Forall_forall. intros i _.
  apply from_bytes_little_u64, slice_length_le.
Qed.

Lemma message_words_u64 (msg : Py.bytes) (ws : list Z) :
  _message_to_words msg = Ok ws -> Forall u64 ws.
Proof.
  destruct (message_to_words_ok msg) as (buf & _ & ->).
  intros [= <-]. apply split_words_u64.
Qed.

Lemma split_words_nth (buf : Py.bytes) (i : nat) :
  (i < (List.length buf + 7) / 8)%nat ->
  nth_error (split_words buf) i
  = Some (Py.from_bytes (Py.slice buf (8 * i) (8 * i + 8)) Py.little).
Proof.
  intros Hi. unfold split_words, Py.range3.
  rewrite !nth_error_map.
  replace (List.length buf - 0 + 8 - 1)%nat with (List.length buf + 7)%nat
    by lia.
  rewrite nth_error_seq.
  destruct (Nat.ltb_spec i ((List.length buf + 7) / 8)) as [_ | Hbad];
    [ | lia].
  cbn [option_map]. replace (0 + (0 + i) * 8)%nat with (8 * i)%nat by lia.
  reflexivity.
Qed.

Lemma slice_of_prefix (msg rest : Py.bytes) (i : nat) :
  (8 * i + 8 <= List.length msg)%nat ->
  Py.slice (msg ++ rest) (8 * i) (8 * i + 8) = Py.slice msg (8 * i) (8 * i + 8).
Proof.
  intros Hi. unfold Py.slice.
  rewrite skipn_app, firstn_app, length_skipn.
  replace (8 * i + 8 - 8 * i - (List.length msg - 8 * i))%nat with 0%nat
    by lia.
  cbn [firstn]. apply app_nil_r.
Qed.

Lemma word_count (msg : Py.bytes) (ws : list Z) :
  _message_to_words msg = Ok ws ->
  Z.of_nat (List.length ws)
  = Z.of_nat (List.length msg) / 8
    + (if (4 <=? Z.of_nat (List.length msg) mod 8)
          && (Z.of_nat (List.length msg) mod 8 <=? 6)
       then 2 else 1).
Proof.
  destruct (message_to_words_ok msg) as (buf & Hbuf & ->).
  intros [= <-]. rewrite split_words_length, Nat2Z.inj_div, Nat2Z.inj_add.
  rewrite (padded_message_length msg buf Hbuf).
  generalize (Z.of_nat (List.length msg)) (Nat2Z.is_nonneg (List.length msg)).
  intros n Hn. cbn [Z.of_nat Pos.of_succ_nat Pos.succ].
  destruct (Z.leb_spec 4 (n mod 8)); destruct (Z.leb_spec (n mod 8) 6);
    cbn [andb]; Z.div_mod_to_equations; lia.
Qed.

Lemma leading_words (msg : Py.bytes) (ws : list Z) (i : nat) :
  _message_to_words msg = Ok ws ->
  (8 * i + 8 <= List.length msg)%nat ->
  nth_error ws i
  = Some (Py.from_bytes (Py.slice msg (8 * i) (8 * i + 8)) Py.little).
Proof.
  intros Hws Hi. unfold _message_to_words in Hws.
  rewrite padded_message_ok in Hws. cbn [bind] in Hws. injection Hws as <-.
  rewrite split_words_nth.
  - rewrite slice_of_prefix by exact Hi. reflexivity.
  - rewrite length_app.
    apply Nat.div_le_lower_bound; lia.
Qed.

(** X9: every word [_message_to_words] returns is below 2^64. *)
Theorem message_words_are_64_bit (msg : Py.bytes) (ws : list Z) (w : Z) :
  _message_to_words msg = Ok ws -> In w ws -> 0 <= w < 2 ^ 64.
Proof.
  intros Hws Hin.
  exact (proj1 (Forall_forall u64 ws) (message_words_u64 msg ws Hws) w Hin).
Qed.

Lemma message_words_are_64_bit_witness : 0 <= 0x0800 < 2 ^ 64.
Proof.
  apply (message_words_are_64_bit one_block_message
           [0x0706050403020100; 0x0800] 0x0800).
  - vm_compute. reflexivity.
  - right. left. reflexivity.
Defined.

(** X10: the number of words is [len / 8 + 1], except for the lengths with
    [len mod 8] equal to 4, 5 or 6, which give [len / 8 + 2] words. *)
Theorem message_word_count (msg : Py.bytes) (ws : list Z) :
  _message_to_words msg = Ok ws ->
  Z.of_nat (List.length ws)
  = Z.of_nat (List.length msg) / 8
    + (if (4 <=? Z.of_nat (List.length msg) mod 8)
          && (Z.of_nat (List.length msg) mod 8 <=? 6)
       then 2 else 1).
Proof. exact (word_count msg ws). Qed.

Lemma message_word_count_witness :
  Z.of_nat (List.length [0x03020100; 0x0400])
  = Z.of_nat (List.length [x00; x01; x02; x03]) / 8
    + (if (4 <=? Z.of_nat (List.length [x00; x01; x02; x03]) mod 8)
          && (Z.of_nat (List.length [x00; x01; x02; x03]) mod 8 <=? 6)
       then 2 else 1).
Proof.
  apply (message_word_count [x00; x01; x02; x03] [0x03020100; 0x0400]).
  vm_compute. reflexivity.
Defined.

(** X11: the words start with the message itself: for every full 8-byte
    block of the message, word [i] is the little-endian value of bytes
    [8 i .. 8 i + 7]. *)
Theorem message_blocks_are_leading_words
  (msg : Py.bytes) (ws : list Z) (i : nat) :
  _message_to_words msg = Ok ws ->
  (8 * i + 8 <= List.length msg)%nat ->
  nth_error ws i
  = Some (Py.from_bytes (Py.slice msg (8 * i) (8 * i + 8)) Py.little).
Proof. exact (leading_words msg ws i). Qed.

Lemma message_blocks_are_leading_words_witness :
  nth_error [0x0706050403020100; 0x0f0e0d0c0b0a0908] 0
  = Some (Py.from_bytes (Py.slice test_message (8 * 0) (8 * 0 + 8)) Py.little).
Proof.
  apply (message_blocks_are_leading_words test_message
           [0x0706050403020100; 0x0f0e0d0c0b0a0908] 0).
  - vm_compute. reflexivity.
  - cbn. lia.
Defined.

(** X12: the padded buffer has a whole number of 8-byte blocks exactly when
    the message length is 3 or 7 modulo 8. *)
Theorem padded_buffer_block_aligned_iff (msg buf : Py.bytes) :
  padded_message msg = Ok buf ->
  Z.of_nat (List.length buf) mod 8 = 0
  <-> Z.of_nat (List.length msg) mod 8 = 3
      \/ Z.of_nat (List.length msg) mod 8 = 7.
Proof. exact (padded_length_aligned_iff msg buf). Qed.

Lemma padded_buffer_block_aligned_iff_witness :
  Z.of_nat (List.length (test_message ++ [x0f])) mod 8 = 0
  <-> Z.of_nat (List.length test_message) mod 8 = 3
      \/ Z.of_nat (List.length test_message) mod 8 = 7.
Proof.
  apply (padded_buffer_block_aligned_iff test_message (test_message ++ [x0f])).
  reflexivity.
Defined.

(** ** _compress and _finalise *)

Lemma repeat_range_state64 (n : Z) (s : state) :
  state64 s -> state64 (Py.repeat_range n _sipround s).
Proof.
  intros Hs. unfold Py.repeat_range.
  induction (Z.to_nat n) as [ | k IH].
  - exact Hs.
  - change (state64 (_sipround (Nat.iter k _sipround s))).
    apply sipround_state64. exact IH.
Qed.

Lemma repeat_range_injective (n : Z) (s t : state) :
  state64 s -> state64 t ->
  Py.repeat_range n _sipround s = Py.repeat_range n _sipround t -> s = t.
Proof.
  intros Hs Ht. unfold Py.repeat_range.
  induction (Z.to_nat n) as [ | k IH]; intros Heq.
  - exact Heq.
  - change (_sipround (Nat.iter k _sipround s)
            = _sipround (Nat.iter k _sipround t)) in Heq.
    apply IH.
    rewrite <- (unsipround_sipround (Nat.iter k _sipround s)),
            <- (unsipround_sipround (Nat.iter k _sipround t)).
    + rewrite Heq. reflexivity.
    + apply (repeat_range_state64 (Z.of_nat k)) in Ht.
      unfold Py.repeat_range in Ht. rewrite Nat2Z.id in Ht. exact Ht.
    + apply (repeat_range_state64 (Z.of_nat k)) in Hs.
      unfold Py.repeat_range in Hs. rewrite Nat2Z.id in Hs. exact Hs.
Qed.

Lemma compress_word_state64 (rc : Z) (s : state) (w : Z) :
  state64 s -> u64 w -> state64 (compress_word rc s w).
Proof.
  destruct s as [[[v0 v1] v2] v3]. intros (H0 & H1 & H2 & H3) Hw.
  unfold compress_word.
  assert (Hin : state64 (v0, v1, v2, Z.lxor v3 w)).
  { refine (conj H0 (conj H1 (conj H2 _))). apply u64_lxor; assumption. }
  apply (repeat_range_state64 rc) in Hin.
  destruct (Py.repeat_range rc _sipround (v0, v1, v2, Z.lxor v3 w))
    as [[[a0 a1] a2] a3].
  destruct Hin as (A0 & A1 & A2 & A3).
  refine (conj _ (conj A1 (conj A2 A3))). apply u64_lxor; assumption.
Qed.

Lemma compress_word_injective (rc : Z) (s t : state) (w : Z) :
  state64 s -> state64 t -> u64 w ->
  compress_word rc s w = compress_word rc t w -> s = t.
Proof.
  destruct s as [[[v0 v1] v2] v3], t as [[[u0 u1] u2] u3].
  intros (H0 & H1 & H2 & H3) (G0 & G1 & G2 & G3) Hw. unfold compress_word.
  assert (Hs : state64 (v0, v1, v2, Z.lxor v3 w)).
  { refine (conj H0 (conj H1 (conj H2 _))). apply u64_lxor; assumption. }
  assert (Ht : state64 (u0, u1, u2, Z.lxor u3 w)).
  { refine (conj G0 (conj G1 (conj G2 _))). apply u64_lxor; assumption. }
  pose proof (repeat_range_injective rc _ _ Hs Ht) as Hinj.
  destruct (Py.repeat_range rc _sipround (v0, v1, v2, Z.lxor v3 w))
    as [[[a0 a1] a2] a3].
  destruct (Py.repeat_range rc _sipround (u0, u1, u2, Z.lxor u3 w))
    as [[[b0 b1] b2] b3].
  intros [= E0 E1 E2 E3].
  assert (Ea : a0 = b0).
  { rewrite <- (lxor_cancel_r a0 w), <- (lxor_cancel_r b0 w), E0.
    reflexivity. }
  assert (Hv : (v0, v1, v2, Z.lxor v3 w) = (u0, u1, u2, Z.lxor u3 w)).
  { apply Hinj. congruence. }
  injection Hv as -> -> -> E.
  rewrite <- (lxor_cancel_r v3 w), <- (lxor_cancel_r u3 w), E. reflexivity.
Qed.

Lemma fold_compress_state64 (rc : Z) (ws : list Z) :
  Forall u64 ws -> forall s, state64 s ->
  state64 (fold_left (compress_word rc) ws s).
Proof.
  induction 1 as [ | w ws Hw _ IH]; intros s Hs; cbn [fold_left].
  - exact Hs.
  - apply IH, compress_word_state64; assumption.
Qed.

Lemma fold_compress_injective (rc : Z) (ws : list Z) :
  Forall u64 ws -> forall s t, state64 s -> state64 t ->
  fold_left (compress_word rc) ws s = fold_left (compress_word rc) ws t ->
  s = t.
Proof.
  induction 1 as [ | w ws Hw _ IH]; intros s t Hs Ht; cbn [fold_left].
  - intros H. exact H.
  - intros H. apply (compress_word_injective rc s t w Hs Ht Hw).
    apply IH; [apply compress_word_state64 .. | exact H]; assumption.
Qed.

Lemma compress_as_fold (rc : Z) (msg : Py.bytes) (s s' : state) :
  _compress rc msg s = Ok s' ->
  exists ws, Forall u64 ws /\ s' = fold_left (compress_word rc) ws s
             /\ forall t, _compress rc msg t
                          = Ok (fold_left (compress_word rc) ws t).
Proof.
  unfold _compress. destruct (_message_to_words msg) as [ws | e] eqn:E;
    [ | discriminate].
  cbn [bind]. intros [= <-]. exists ws.
  split; [exact (message_words_u64 msg ws E) | ].
  split; reflexivity.
Qed.

Lemma compress_state64 (rc : Z) (msg : Py.bytes) (s s' : state) :
  state64 s -> _compress rc msg s = Ok s' -> state64 s'.
Proof.
  intros Hs H. destruct (compress_as_fold rc msg s s' H) as (ws & Hws & -> & _).
  apply fold_compress_state64; assumption.
Qed.

Lemma compress_injective (rc : Z) (msg : Py.bytes) (s t s' : state) :
  state64 s -> state64 t ->
  _compress rc msg s = Ok s' -> _compress rc msg t = Ok s' -> s = t.
Proof.
  intros Hs Ht H H'.
  destruct (compress_as_fold rc msg s s' H) as (ws & Hws & -> & Hall).
  rewrite Hall in H'. injection H' as H'.
  apply (fold_compress_injective rc ws Hws s t Hs Ht). symmetry. exact H'.
Qed.

Lemma compress_empty (rc : Z) (s : state) :
  _compress rc [] s = Ok (Py.repeat_range rc _sipround s).
Proof.
  destruct s as [[[v0 v1] v2] v3].
  change (_compress rc [] (v0, v1, v2, v3))
    with (Ok (compress_word rc (v0, v1, v2, v3) 0)).
  unfold compress_word. rewrite Z.lxor_0_r.
  destruct (Py.repeat_range rc _sipround (v0, v1, v2, v3))
    as [[[a0 a1] a2] a3].
  rewrite Z.lxor_0_r. reflexivity.
Qed.

Lemma finalise_u64 (rd : Z) (s : state) : state64 s -> u64 (_finalise rd s).
Proof.
  destruct s as [[[v0 v1] v2] v3]. intros (H0 & H1 & H2 & H3).
  unfold _finalise.
  assert (Hin : state64 (v0, v1, Z.lxor v2 0xff, v3)).
  { refine (conj H0 (conj H1 (conj _ H3))).
    apply u64_lxor; [assumption | unfold u64; lia]. }
  apply (repeat_range_state64 rd) in Hin.
  destruct (Py.repeat_range rd _sipround (v0, v1, Z.lxor v2 0xff, v3))
    as [[[a0 a1] a2] a3].
  destruct Hin as (A0 & A1 & A2 & A3).
  repeat apply u64_lxor; assumption.
Qed.

Lemma compute_hash_u64 (self : SipHash) (h : Z) :
  compute_hash self = Ok h -> u64 h.
Proof.
  unfold compute_hash.
  destruct (_encode_key (key self)) as [[k0 k1] | e] eqn:Ek; [ | discriminate].
  cbn [bind].
  destruct (_compress (c self) (message self)
              (_initialise_internal_state k0 k1)) as [st | e] eqn:Ec;
    [ | discriminate].
  cbn [bind]. intros [= <-].
  destruct (encode_key_in_range _ _ _ Ek) as (_ & Hk0 & Hk1).
  apply finalise_u64.
  apply (compress_state64 _ _ _ _ (initial_state64 k0 k1 Hk0 Hk1) Ec).
Qed.

Lemma fresh_get_hash_compute (self : SipHash) (h : Z) :
  hash self = None -> fst (get_hash self) = Ok h -> compute_hash self = Ok h.
Proof.
  intros Hn. unfold get_hash. rewrite Hn.
  destruct (compute_hash self) as [h' | e]; cbn [fst]; intros H;
    [exact H | discriminate H].
Qed.

Lemma digest_range_helper (k : Z) (msg : Py.bytes) (rc rd h : Z) :
  fst (get_hash (__init__ k msg rc rd)) = Ok h -> u64 h.
Proof.
  intros H. apply (compute_hash_u64 (__init__ k msg rc rd)).
  apply fresh_get_hash_compute; [reflexivity | exact H].
Qed.

(** X13: a digest returned by [get_hash] on a new engine is a value of 64
    bits, for every key, message and round counts. *)
Theorem digest_is_64_bit (k : Z) (msg : Py.bytes) (rc rd h : Z) :
  fst (get_hash (__init__ k msg rc rd)) = Ok h -> 0 <= h < 2 ^ 64.
Proof. exact (digest_range_helper k msg rc rd h). Qed.

Lemma digest_is_64_bit_witness : 0 <= 0xa129ca6149be45e5 < 2 ^ 64.
Proof.
  apply (digest_is_64_bit test_key test_message 2 4 0xa129ca6149be45e5).
  vm_compute. reflexivity.
Defined.

(** X14: compressing the empty message is [c] rounds on the state and
    nothing else: its one word is 0, so both xors leave the state as it is;
    with [c <= 0] the state is returned unchanged. *)
Theorem compress_of_empty_message (rc : Z) (s : state) :
  _compress rc [] s = Ok (Py.repeat_range rc _sipround s)
  /\ (rc <= 0 -> _compress rc [] s = Ok s).
Proof.
  split; [apply compress_empty | ].
  intros Hc. rewrite compress_empty, repeat_range_nonpos by exact Hc.
  reflexivity.
Qed.

Lemma compress_of_empty_message_witness :
  _compress 2 [] test_round_state
  = Ok (Py.repeat_range 2 _sipround test_round_state)
  /\ _compress (-1) [] test_round_state = Ok test_round_state.
Proof.
  split.
  - apply (proj1 (compress_of_empty_message 2 test_round_state)).
  - apply (proj2 (compress_of_empty_message (-1) test_round_state)). lia.
Defined.

(** X15: for a fixed message and round count, [_compress] maps states of
    64-bit words to states of 64-bit words and never sends two of them to the
    same state. *)
Theorem compress_is_injective_on_states
  (rc : Z) (msg : Py.bytes) (s s' : state) :
  state64 s -> _compress rc msg s = Ok s' ->
  state64 s'
  /\ (forall t, state64 t -> _compress rc msg t = Ok s' -> t = s).
Proof.
  intros Hs H. split.
  - apply (compress_state64 rc msg s s' Hs H).
  - intros t Ht H'. apply (compress_injective rc msg t s s' Ht Hs H' H).
Qed.

Lemma compress_is_injective_on_states_witness :
  state64 (0x3c85b3ab6f55be51, 0x414fc3fb98efe374,
           0xccf13ea527b9f4bd, 0x5293f5da84008f82)
  /\ (forall t, state64 t ->
        _compress 2 test_message t
        = Ok (0x3c85b3ab6f55be51, 0x414fc3fb98efe374,
              0xccf13ea527b9f4bd, 0x5293f5da84008f82) ->
        t = (0x7469686173716475, 0x6b617f6d656e6665,
             0x6b7f62616d677361, 0x7b6b696e727e6c7b)).
Proof.
  apply (compress_is_injective_on_states 2 test_message
           (0x7469686173716475, 0x6b617f6d656e6665,
            0x6b7f62616d677361, 0x7b6b696e727e6c7b)).
  - unfold state64, u64. lia.
  - vm_compute. reflexivity.
Defined.

(** ** hexdigest *)












Lemma hexdigest_fresh (self : SipHash) (s : string) :
  hash self = None -> fst (hexdigest self) = Ok s ->
  exists h, compute_hash self = Ok h
            /\ s = Py.string_from 2 (Py.hex h)
            /\ snd (hexdigest self) = set_hash self h.
Proof.
  intros Hn H. unfold hexdigest, get_hash in *. rewrite Hn in *.
  destruct (compute_hash self) as [h | e]; cbn [fst snd] in *;
    [ | discriminate H].
  injection H as <-. exists h. repeat split.
Qed.

(** X17: a [hexdigest] that returns on a new engine stores the digest in the
    engine and writes no other field; a following [get_hash] returns the
    stored digest and a following [hexdigest] the same string, both leaving
    the engine as it is. *)
Theorem hexdigest_fills_the_cache
  (k : Z) (msg : Py.bytes) (rc rd : Z) (s : string) :
  fst (hexdigest (__init__ k msg rc rd)) = Ok s ->
  exists h,
    snd (hexdigest (__init__ k msg rc rd))
    = {| key := k; message := msg; c := rc; d := rd; hash := Some h |}
    /\ get_hash (snd (hexdigest (__init__ k msg rc rd)))
       = (Ok h, snd (hexdigest (__init__ k msg rc rd)))
    /\ hexdigest (snd (hexdigest (__init__ k msg rc rd)))
       = (Ok s, snd (hexdigest (__init__ k msg rc rd))).
Proof.
  intros H.
  destruct (hexdigest_fresh (__init__ k msg rc rd) s eq_refl H)
    as (h & _ & -> & ->).
  exists h. split; [reflexivity | ]. split; reflexivity.
Qed.

Lemma hexdigest_fills_the_cache_witness :
  exists h,
    snd (hexdigest (__init__ test_key test_message 2 4))
    = {| key := test_key; message := test_message; c := 2; d := 4;
         hash := Some h |}
    /\ get_hash (snd (hexdigest (__init__ test_key test_message 2 4)))
       = (Ok h, snd (hexdigest (__init__ test_key test_message 2 4)))
    /\ hexdigest (snd (hexdigest (__init__ test_key test_message 2 4)))
       = (Ok "a129ca6149be45e5"%string,
          snd (hexdigest (__init__ test_key test_message 2 4))).
Proof.
  apply (hexdigest_fills_the_cache test_key test_message 2 4).
  vm_compute. reflexivity.
Defined.
